(** * EMG support functions: pulse location, MEP detection and measurement,
      recruitment-curve aggregation.

    Shallow embedding of [emg_support_functions.py].  A signal (one column
    of the data frame with its default index, or a one-dimensional array)
    is the list of its samples, read by position.  Samples are exact
    rationals, and nan appears only where the program itself produces it;
    where rounding decides, in the question of a constant added to every
    sample, the same functions are given over binary64 floats in the
    module [Binary64] at the end of the definitions.  Python
    exceptions are an explicit outcome, and text sent to [print] is
    collected next to it.  The calls into the drawing library are left
    out. *)

From Stdlib Require Import String.
From Stdlib Require Import List Bool Arith ZArith QArith Qminmax Lia Lqa.
From Corelib Require Import PrimFloat.
Import ListNotations.

Open Scope Q_scope.

(** ** Python outcomes: a value or a raised exception, with the console *)

Inductive exn : Type :=
| IndexError
| ValueError
| TypeError
| ZeroDivisionError.

Inductive outcome (A : Type) : Type :=
| Return (a : A)
| Raise (e : exn).

Arguments Return {A} a.
Arguments Raise {A} e.

Definition Py (A : Type) : Type := (list string * outcome A)%type.

Definition ret {A} (a : A) : Py A := ([], Return a).

Definition raise {A} (e : exn) : Py A := ([], Raise e).

Definition print (s : string) : Py unit := ([s], Return tt).

Definition bind {A B} (m : Py A) (f : A -> Py B) : Py B :=
  match m with
  | (out, Return a) => let (out', r) := f a in ((out ++ out')%list, r)
  | (out, Raise e) => (out, Raise e)
  end.

Notation "x <- m ;; k" := (bind m (fun x => k))
  (at level 61, m at next level, right associativity).
Notation "m ;;; k" := (bind m (fun _ => k))
  (at level 61, right associativity).

(** ** Signals *)

Definition Signal : Type := list Q.

(** [x[i]] for an index inside the signal; the loops below read no other. *)
Definition sample (x : Signal) (i : nat) : Q := nth i x 0.

(** [-emg_signal] *)
Definition negate (x : Signal) : Signal := map Qopp x.

Definition Qltb (a b : Q) : bool := negb (Qle_bool b a).

(** ** The peak detector: [scipy.signal.find_peaks(x, prominence=p)]

    The library routine is not part of the repository; it is modelled after
    its algorithm: the local maxima of [x] (a flat top counts once, at its
    middle sample; the first and the last sample never count), of which
    those with a prominence of at least [p] are kept, in index order. *)

(** Inner loop of the maxima search:
    [while i_ahead < i_max and x[i_ahead] == x[i]: i_ahead += 1]. *)
Fixpoint plateau_scan (fuel : nat) (x : Signal) (i i_ahead i_max : nat) : nat :=
  match fuel with
  | O => i_ahead
  | S fuel' =>
      if (i_ahead <? i_max)%nat && Qeq_bool (sample x i_ahead) (sample x i)
      then plateau_scan fuel' x i (S i_ahead) i_max
      else i_ahead
  end.

Definition plateau_end (x : Signal) (i i_max : nat) : nat :=
  plateau_scan (i_max - S i) x i (S i) i_max.

(** Outer loop: [while i < i_max: ...; i += 1].  Every round advances [i],
    so [i_max - i] rounds are enough. *)
Fixpoint maxima_loop (fuel : nat) (x : Signal) (i i_max : nat) : list nat :=
  match fuel with
  | O => []
  | S fuel' =>
      if (i <? i_max)%nat then
        if Qltb (sample x (i - 1)) (sample x i) then
          let i_ahead := plateau_end x i i_max in
          if Qltb (sample x i_ahead) (sample x i) then
            ((i + (i_ahead - 1)) / 2)%nat :: maxima_loop fuel' x (S i_ahead) i_max
          else maxima_loop fuel' x (S i) i_max
        else maxima_loop fuel' x (S i) i_max
      else []
  end.

Definition local_maxima (x : Signal) : list nat :=
  let i_max := (length x - 1)%nat in
  maxima_loop (i_max - 1) x 1 i_max.

Definition lower (v m : Q) : Q := if Qltb v m then v else m.

(** Walk to the left of the peak while the samples do not exceed it, keeping
    the lowest sample seen: [n] is one more than the current index, so that
    [n = 0] is the walk falling off the start of the signal. *)
Fixpoint left_scan (x : Signal) (peak n : nat) (left_min : Q) : Q :=
  match n with
  | O => left_min
  | S i =>
      if Qle_bool (sample x i) (sample x peak)
      then left_scan x peak i (lower (sample x i) left_min)
      else left_min
  end.

(** The same walk to the right, up to the last index [i_max]. *)
Fixpoint right_scan (fuel : nat) (x : Signal) (peak i i_max : nat)
    (right_min : Q) : Q :=
  match fuel with
  | O => right_min
  | S fuel' =>
      if (i <=? i_max)%nat && Qle_bool (sample x i) (sample x peak)
      then right_scan fuel' x peak (S i) i_max (lower (sample x i) right_min)
      else right_min
  end.

Definition left_min (x : Signal) (peak : nat) : Q :=
  left_scan x peak (S peak) (sample x peak).

Definition right_min (x : Signal) (peak : nat) : Q :=
  right_scan (length x - peak) x peak peak (length x - 1) (sample x peak).

Definition peak_prominence (x : Signal) (peak : nat) : Q :=
  sample x peak - Qmax (left_min x peak) (right_min x peak).

Definition find_peaks (x : Signal) (prominence : Q) : list nat :=
  filter (fun peak => Qle_bool prominence (peak_prominence x peak))
         (local_maxima x).

(** The threshold used by every caller. *)
Definition min_prominence : Q := 0.05.

(** ** The repository's functions *)

(** [peaks[k]] on an array of indices. *)
Definition getitem {A} (l : list A) (k : nat) : Py A :=
  match nth_error l k with
  | Some a => ret a
  | None => raise IndexError
  end.

Definition find_tms_pulse (emg_signal : Signal) : Py nat :=
  let peaks := find_peaks emg_signal min_prominence in
  let peaks :=
    if (length peaks =? 0)%nat
    then find_peaks (negate emg_signal) min_prominence
    else peaks in
  getitem peaks 0.

Definition is_mep (emg_signal : Signal) : bool :=
  let peaks := find_peaks emg_signal min_prominence in
  if (1 <? length peaks)%nat then true else false.

(** What [find_mep_timing] hands back: the empty list [[]] when no MEP was
    detected, the index [peaks[1]] otherwise. *)
Inductive timing : Type :=
| EmptyList
| PeakIndex (t : nat).

Definition find_mep_timing (emg_signal : Signal) : Py timing :=
  if negb (is_mep emg_signal) then
    print "No MEP detected" ;;; ret EmptyList
  else
    let peaks := find_peaks emg_signal min_prominence in
    t <- getitem peaks 1 ;; ret (PeakIndex t).

(** Bound of a Python slice on a sequence of length [n]: a negative bound
    counts from the end, and every bound is brought back into [0, n]. *)
Definition slice_bound (n i : Z) : Z :=
  if (i <? 0)%Z then Z.max (i + n) 0 else Z.min i n.

(** [x[a:b]] *)
Definition slice (x : Signal) (a b : Z) : Signal :=
  let n := Z.of_nat (length x) in
  let start := Z.to_nat (slice_bound n a) in
  let stop := Z.to_nat (slice_bound n b) in
  firstn (stop - start) (skipn start x).

(** A float the program computes: a number, or nan.  The samples are taken
    to be floating-point numbers, as in a data frame of recordings in mV;
    arrays of fixed-width integers, whose differences can wrap around, are
    not covered. *)
Inductive pyfloat : Type :=
| Num (q : Q)
| NaN.

Definition fadd (a b : pyfloat) : pyfloat :=
  match a, b with
  | Num u, Num v => Num (u + v)
  | _, _ => NaN
  end.

Definition fsub (a b : pyfloat) : pyfloat :=
  match a, b with
  | Num u, Num v => Num (u - v)
  | _, _ => NaN
  end.

(** [a / k] for an integer [k] other than 0. *)
Definition fdiv_int (a : pyfloat) (k : nat) : pyfloat :=
  match a with
  | Num u => Num (u / inject_Z (Z.of_nat k))
  | NaN => NaN
  end.

(** The functions take whatever [scipy] and [numpy] accept.  The one place
    where the kind of container matters is the reduction of an empty
    slice: on an array [np.max] raises ValueError, on a column of a data
    frame it hands over to the column's own [max], which answers nan. *)
Inductive container : Type :=
| Array
| Series.

Definition empty_reduction (kind : container) : Py pyfloat :=
  match kind with
  | Array => raise ValueError
  | Series => ret NaN
  end.

(** [np.max] and [np.min] *)
Definition np_max (kind : container) (l : list Q) : Py pyfloat :=
  match l with
  | [] => empty_reduction kind
  | v :: l' => ret (Num (fold_left Qmax l' v))
  end.

Definition np_min (kind : container) (l : list Q) : Py pyfloat :=
  match l with
  | [] => empty_reduction kind
  | v :: l' => ret (Num (fold_left Qmin l' v))
  end.

Definition get_mep_size (kind : container) (emg_signal : Signal)
    : Py pyfloat :=
  peak_emg <- find_mep_timing emg_signal ;;
  match peak_emg with
  | EmptyList => raise TypeError
  | PeakIndex t =>
      let window := (Z.of_nat t - 50, Z.of_nat t + 50)%Z in
      hi <- np_max kind (slice emg_signal (fst window) (snd window)) ;;
      lo <- np_min kind (slice emg_signal (fst window) (snd window)) ;;
      ret (fsub hi lo)
  end.

(** The data frame: its columns (one trial each), in column order. *)
Definition DataFrame : Type := list Signal.

(** First loop of [plot_recruitment_curve], over the columns [df[col]]. *)
Fixpoint measure_trials (columns : DataFrame)
    (mep_sizes : list (option pyfloat)) : Py (list (option pyfloat)) :=
  match columns with
  | [] => ret mep_sizes
  | col :: rest =>
      if is_mep col then
        size <- get_mep_size Series col ;;
        measure_trials rest (mep_sizes ++ [Some size])
      else
        measure_trials rest (mep_sizes ++ [None])
  end.

(** [for i in range(start, start + n): s = body(i, s)] *)
Fixpoint for_range {St : Type} (body : nat -> St -> Py St) (start n : nat)
    (s : St) : Py St :=
  match n with
  | O => ret s
  | S n' => s' <- body start s ;; for_range body (S start) n' s'
  end.

(** Body of the counting loops; the state is [(sum_meps, counter)]. *)
Definition add_trial (mep_sizes : list (option pyfloat)) (i : nat)
    (acc : pyfloat * nat) : Py (pyfloat * nat) :=
  size <- getitem mep_sizes i ;;
  match size with
  | Some v => ret (fadd (fst acc) v, S (snd acc))
  | None => ret acc
  end.

(** [sum_meps/counter]: both are still the integer 0 when nothing was
    counted, and that division raises. *)
Definition divide (sum_meps : pyfloat) (counter : nat) : Py pyfloat :=
  if (counter =? 0)%nat then raise ZeroDivisionError
  else ret (fdiv_int sum_meps counter).

(** [l[k] = v] *)
Fixpoint set_nth {A} (l : list A) (k : nat) (v : A) : list A :=
  match l, k with
  | [], _ => []
  | _ :: l', O => v :: l'
  | a :: l', S k' => a :: set_nth l' k' v
  end.

Definition setitem {A} (l : list A) (k : nat) (v : A) : Py (list A) :=
  if (k <? length l)%nat then ret (set_nth l k v) else raise IndexError.

(** Body of the loop over the intensities: six more trials are counted
    into the running sum and counter, and their quotient is stored. *)
Definition intensity_body (mep_sizes : list (option pyfloat))
    (tms_intensity : nat) (st : (pyfloat * nat) * list (option pyfloat))
    : Py ((pyfloat * nat) * list (option pyfloat)) :=
  let location := (6 + tms_intensity * 6)%nat in
  acc <- for_range (fun i => add_trial mep_sizes (location + i)) 0 6 (fst st) ;;
  mean <- divide (fst acc) (snd acc) ;;
  curve <- setitem (snd st) tms_intensity (Some mean) ;;
  ret (acc, curve).

(** Second and third loop: the mean of the first twelve trials, then the
    five intensities above threshold; sum and counter are set to zero before
    each of the two loops. *)
Definition recruitment_means (mep_sizes : list (option pyfloat))
    : Py (list (option pyfloat)) :=
  let recruitment_curve := repeat None 6 in
  acc <- for_range (add_trial mep_sizes) 0 12 (Num 0, 0%nat) ;;
  mean <- divide (fst acc) (snd acc) ;;
  recruitment_curve <- setitem recruitment_curve 0 (Some mean) ;;
  st <- for_range (intensity_body mep_sizes) 1 5
                  ((Num 0, 0%nat), recruitment_curve) ;;
  ret (snd st).

(** Of the drawing at the end one thing is kept: [mep_sizes] is paired
    with the list of 42 intensities, and the table built from the two
    refuses columns of different lengths with ValueError. *)
Definition lineplot (mep_sizes : list (option pyfloat)) : Py unit :=
  if (length mep_sizes =? 42)%nat then ret tt else raise ValueError.

Definition plot_recruitment_curve (df : DataFrame)
    : Py (list (option pyfloat)) :=
  mep_sizes <- measure_trials df [] ;;
  recruitment_curve <- recruitment_means mep_sizes ;;
  lineplot mep_sizes ;;;
  ret recruitment_curve.


(** ** Notions used to state the properties *)

(** The maxima search resumed at index [i], with exactly the rounds it
    needs. *)
Definition maxima_from (x : Signal) (i i_max : nat) : list nat :=
  maxima_loop (i_max - i) x i i_max.

(** A list of indices that increases strictly and starts at [lo] or later. *)
Inductive increasing_from : nat -> list nat -> Prop :=
| increasing_nil : forall lo, increasing_from lo []
| increasing_cons : forall lo p l,
    (lo <= p)%nat -> increasing_from (S p) l -> increasing_from lo (p :: l).

(** A zero baseline with one deflection: [p] zeros, the value [v], [q] zeros. *)
Definition spike (p q : nat) (v : Q) : Signal := repeat 0 p ++ v :: repeat 0 q.

(** A flat signal of [n] zero samples. *)
Definition flat (n : nat) : Signal := repeat 0 n.

(** The samples of [x] at the positions [w] with [lo <= w < hi], the first
    sample of [x] being at position [i]. *)
Fixpoint samples_between_from (x : Signal) (i lo hi : Z) : list Q :=
  match x with
  | [] => []
  | v :: x' =>
      if ((lo <=? i) && (i <? hi))%Z
      then v :: samples_between_from x' (i + 1) lo hi
      else samples_between_from x' (i + 1) lo hi
  end.

Definition samples_between (x : Signal) (lo hi : Z) : list Q :=
  samples_between_from x 0 lo hi.

(** The samples of the half-open window [t - 50, t + 50) around [t]. *)
Definition window_samples (x : Signal) (t : nat) : list Q :=
  samples_between x (Z.of_nat t - 50) (Z.of_nat t + 50).

(** Largest minus smallest value. *)
Definition peak_to_peak (kind : container) (l : list Q) : Py pyfloat :=
  hi <- np_max kind l ;; lo <- np_min kind l ;; ret (fsub hi lo).

(** Two floats that stand for the same value. *)
Definition feq (a b : pyfloat) : Prop :=
  match a, b with
  | Num u, Num v => u == v
  | NaN, NaN => True
  | _, _ => False
  end.

(** The measured sizes among per-trial results. *)
Definition present (results : list (option pyfloat)) : list pyfloat :=
  flat_map (fun r => match r with Some v => [v] | None => [] end) results.

(** Trials [start, start + n), of the data frame or of the results. *)
Definition trials {A : Type} (l : list A) (start n : nat) : list A :=
  firstn n (skipn start l).

(** The protocol: group 0 is trials [0, 12); group [k] in 1..5 is trials
    [12 + 6 (k - 1), 18 + 6 (k - 1)). *)
Definition group_start (k : nat) : nat :=
  match k with O => 0 | S k' => 12 + 6 * k' end.

Definition group_size (k : nat) : nat :=
  match k with O => 12 | S _ => 6 end.

Definition group_values (results : list (option pyfloat)) (k : nat)
    : list pyfloat :=
  present (trials results (group_start k) (group_size k)).

Definition total (l : list pyfloat) : pyfloat := fold_left fadd l (Num 0).

Definition arithmetic_mean (l : list pyfloat) : pyfloat :=
  fdiv_int (total l) (length l).

(** Signals whose second peak comes before sample 50: two of fewer than 100
    samples, where the slice starts near the end of the signal, and a long
    one, where the slice is empty. *)
Definition early_peak_short : Signal := [0; 5; 0; 1] ++ repeat 0 56.

Definition early_peak_medium : Signal := [0; 2; 0; 1] ++ repeat 0 76.

Definition early_peak_long : Signal := [0; 1; 0; 1] ++ repeat 0 116.

(** 200 samples, all zero but 1.0 at index 50 and 0.5 at index 150. *)
Definition two_pulses : Signal :=
  repeat 0 50 ++ [1] ++ repeat 0 99 ++ [0.5] ++ repeat 0 49.

(** A trial in which no MEP is detected. *)
Definition no_mep (col : Signal) : Prop := is_mep col = false.

(** What the first loop records for a trial. *)
Definition measured (col : Signal) (r : option pyfloat) : Prop :=
  if is_mep col
  then exists v, get_mep_size Series col = ([], Return v) /\ r = Some v
  else r = None.

(** What the third loop accumulates when it reaches intensity [k] in 1..5:
    the trials from 12 up to the end of group [k]. *)
Definition trials_up_to (results : list (option pyfloat)) (k : nat)
    : list pyfloat :=
  present (trials results 12 (6 * k)).

(** Trials with a MEP of size 1, of size 3 and without MEP. *)
Definition trial_of_size_1 : Signal := [0; 1; 0; 1; 0].
Definition trial_of_size_3 : Signal := [0; 3; 0; 3; 0].
Definition trial_without_mep : Signal := [0; 0; 0; 0; 0].

(** 42 trials of size 1, except for the six of group 2, of size 3. *)
Definition stronger_group_2 : DataFrame :=
  repeat trial_of_size_1 18 ++ repeat trial_of_size_3 6
  ++ repeat trial_of_size_1 18.

(** 42 trials of size 1, except for the six of group 1, without MEP. *)
Definition silent_group_1 : DataFrame :=
  repeat trial_of_size_1 12 ++ repeat trial_without_mep 6
  ++ repeat trial_of_size_1 24.

(** ** The drawing functions, as far as they compute

    The calls into the drawing library are left out; what is kept is what
    the program computes and hands to them. *)

(** [a * k] for a literal [k]. *)
Definition fscale (a : pyfloat) (k : Q) : pyfloat :=
  match a with
  | Num u => Num (u * k)
  | NaN => NaN
  end.

(** The builtin [min(a, b)] and [max(a, b)]: the second argument is taken
    when it compares strictly below (above) the first, and no comparison
    with nan holds. *)
Definition builtin_min (a b : pyfloat) : pyfloat :=
  match a, b with
  | Num u, Num v => if Qltb v u then b else a
  | _, _ => a
  end.

Definition builtin_max (a b : pyfloat) : pyfloat :=
  match a, b with
  | Num u, Num v => if Qltb u v then b else a
  | _, _ => a
  end.

(** [df.values]: every sample of the frame, as one array. *)
Definition values (df : DataFrame) : list Q := concat df.

(** [plot_pre_post_filtering]: the limits [[y_min, y_max]] that both axes
    are given. *)
Definition plot_pre_post_filtering (original_df filtered_df : DataFrame)
    : Py (pyfloat * pyfloat) :=
  lo1 <- np_min Array (values original_df) ;;
  lo2 <- np_min Array (values filtered_df) ;;
  let y_min := fscale (builtin_min lo1 lo2) 1.15 in
  hi1 <- np_max Array (values original_df) ;;
  hi2 <- np_max Array (values filtered_df) ;;
  let y_max := fscale (builtin_max hi1 hi2) 1.15 in
  ret (y_min, y_max).

(** What [draw_detected] draws over the signal: the band of [fill_between]
    (its two levels and, for every sample, whether it is shaded) and the
    place of the vertical line. *)
Record drawing : Type := {
  band_low : pyfloat;
  band_high : pyfloat;
  shaded : list bool;
  pulse_line : nat
}.

(** [draw_detected] on a column with the default index, where the labels
    are the positions.  The test [peak_emg == []] holds for the empty list
    and for nothing else: an index compared with [[]] gives an empty array,
    which counts as false.  The result is [None] when nothing is drawn. *)
Definition draw_detected (emg_signal : Signal) : Py (option drawing) :=
  peak_emg <- find_mep_timing emg_signal ;;
  match peak_emg with
  | EmptyList => print "No MEP detected" ;;; ret None
  | PeakIndex t =>
      let window := (Z.of_nat t - 50, Z.of_nat t + 50)%Z in
      lo <- np_min Series emg_signal ;;
      let y_min := fscale lo 1.1 in
      hi <- np_max Series emg_signal ;;
      let y_max := fscale hi 1.1 in
      let where_ :=
        map (fun w => (fst window <=? Z.of_nat w)%Z
                      && (Z.of_nat w <=? snd window)%Z)
            (seq 0 (length emg_signal)) in
      tms_pulse <- find_tms_pulse emg_signal ;;
      ret (Some {| band_low := y_min; band_high := y_max;
                   shaded := where_; pulse_line := tms_pulse |})
  end.

(** The samples of [x] that a mask selects. *)
Fixpoint select (mask : list bool) (x : Signal) : list Q :=
  match mask, x with
  | b :: mask', v :: x' => if b then v :: select mask' x' else select mask' x'
  | _, _ => []
  end.

(** A list of indices in which each is at least two above the one before. *)
Inductive separated_from : nat -> list nat -> Prop :=
| separated_nil : forall lo, separated_from lo []
| separated_cons : forall lo p l,
    (lo <= p)%nat -> separated_from (S (S p)) l -> separated_from lo (p :: l).

(** A trial in which a MEP is detected. *)
Definition with_mep (col : Signal) : Prop := is_mep col = true.

(** A per-trial size that is a number. *)
Definition is_number (v : pyfloat) : Prop :=
  match v with Num _ => True | NaN => False end.

(** An outcome that is one of the two failures of the counting loops,
    without output. *)
Definition index_or_zero_division {A : Type} (r : Py A) : Prop :=
  r = ([], Raise IndexError) \/ r = ([], Raise ZeroDivisionError).

(** A detected MEP peak from which [get_mep_size] has samples to read. *)
Definition readable (col : Signal) : Prop :=
  forall t, find_mep_timing col = ([], Return (PeakIndex t)) ->
            (50 <= t \/ length col < 100)%nat.

(** ** The measurement over binary64 floats

    The same functions with the arithmetic of the program: samples are
    binary64 floats, compared and subtracted as the machine does it.  The
    outcomes, the containers and the slice bounds are those above. *)

Module Binary64.

Definition Signal : Type := list float.

Definition sample (x : Signal) (i : nat) : float := nth i x 0%float.

(** [emg_signal + c] *)
Definition offset (c : float) (x : Signal) : Signal :=
  map (fun v => PrimFloat.add v c) x.

Fixpoint plateau_scan (fuel : nat) (x : Signal) (i i_ahead i_max : nat) : nat :=
  match fuel with
  | O => i_ahead
  | S fuel' =>
      if (i_ahead <? i_max)%nat
         && PrimFloat.eqb (sample x i_ahead) (sample x i)
      then plateau_scan fuel' x i (S i_ahead) i_max
      else i_ahead
  end.

Definition plateau_end (x : Signal) (i i_max : nat) : nat :=
  plateau_scan (i_max - S i) x i (S i) i_max.

Fixpoint maxima_loop (fuel : nat) (x : Signal) (i i_max : nat) : list nat :=
  match fuel with
  | O => []
  | S fuel' =>
      if (i <? i_max)%nat then
        if PrimFloat.ltb (sample x (i - 1)) (sample x i) then
          let i_ahead := plateau_end x i i_max in
          if PrimFloat.ltb (sample x i_ahead) (sample x i) then
            ((i + (i_ahead - 1)) / 2)%nat :: maxima_loop fuel' x (S i_ahead) i_max
          else maxima_loop fuel' x (S i) i_max
        else maxima_loop fuel' x (S i) i_max
      else []
  end.

Definition local_maxima (x : Signal) : list nat :=
  let i_max := (length x - 1)%nat in
  maxima_loop (i_max - 1) x 1 i_max.

Definition lower (v m : float) : float := if PrimFloat.ltb v m then v else m.

(** [max(left_min, right_min)] *)
Definition higher (a b : float) : float := if PrimFloat.ltb a b then b else a.

Fixpoint left_scan (x : Signal) (peak n : nat) (left_min : float) : float :=
  match n with
  | O => left_min
  | S i =>
      if PrimFloat.leb (sample x i) (sample x peak)
      then left_scan x peak i (lower (sample x i) left_min)
      else left_min
  end.

Fixpoint right_scan (fuel : nat) (x : Signal) (peak i i_max : nat)
    (right_min : float) : float :=
  match fuel with
  | O => right_min
  | S fuel' =>
      if (i <=? i_max)%nat && PrimFloat.leb (sample x i) (sample x peak)
      then right_scan fuel' x peak (S i) i_max (lower (sample x i) right_min)
      else right_min
  end.

Definition left_min (x : Signal) (peak : nat) : float :=
  left_scan x peak (S peak) (sample x peak).

Definition right_min (x : Signal) (peak : nat) : float :=
  right_scan (length x - peak) x peak peak (length x - 1) (sample x peak).

Definition peak_prominence (x : Signal) (peak : nat) : float :=
  PrimFloat.sub (sample x peak) (higher (left_min x peak) (right_min x peak)).

Definition find_peaks (x : Signal) (prominence : float) : list nat :=
  filter (fun peak => PrimFloat.leb prominence (peak_prominence x peak))
         (local_maxima x).

(** The float nearest to 0.05. *)
Definition min_prominence : float := 0x1.999999999999ap-5%float.

Definition is_mep (emg_signal : Signal) : bool :=
  let peaks := find_peaks emg_signal min_prominence in
  if (1 <? length peaks)%nat then true else false.

Definition find_mep_timing (emg_signal : Signal) : Py timing :=
  if negb (is_mep emg_signal) then
    print "No MEP detected" ;;; ret EmptyList
  else
    let peaks := find_peaks emg_signal min_prominence in
    t <- getitem peaks 1 ;; ret (PeakIndex t).

(** [x[a:b]] *)
Definition slice (x : Signal) (a b : Z) : Signal :=
  let n := Z.of_nat (length x) in
  let start := Z.to_nat (slice_bound n a) in
  let stop := Z.to_nat (slice_bound n b) in
  firstn (stop - start) (skipn start x).

(** One step of [np.max] and of [np.min] along an array: the value kept so
    far stays when it is nan or compares at least (at most) as large. *)
Definition maximum (a b : float) : float :=
  if PrimFloat.leb b a || PrimFloat.is_nan a then a else b.

Definition minimum (a b : float) : float :=
  if PrimFloat.leb a b || PrimFloat.is_nan a then a else b.

(** On an array the reduction runs over all the samples and raises when
    there is none; on a column it runs over the samples that are not nan and
    answers nan when there is none. *)
Definition reduce (step : float -> float -> float) (kind : container)
    (l : list float) : Py float :=
  match kind with
  | Array =>
      match l with
      | [] => raise ValueError
      | v :: l' => ret (fold_left step l' v)
      end
  | Series =>
      match filter (fun v => negb (PrimFloat.is_nan v)) l with
      | [] => ret PrimFloat.nan
      | v :: l' => ret (fold_left step l' v)
      end
  end.

Definition np_max : container -> list float -> Py float := reduce maximum.

Definition np_min : container -> list float -> Py float := reduce minimum.

Definition get_mep_size (kind : container) (emg_signal : Signal) : Py float :=
  peak_emg <- find_mep_timing emg_signal ;;
  match peak_emg with
  | EmptyList => raise TypeError
  | PeakIndex t =>
      let window := (Z.of_nat t - 50, Z.of_nat t + 50)%Z in
      hi <- np_max kind (slice emg_signal (fst window) (snd window)) ;;
      lo <- np_min kind (slice emg_signal (fst window) (snd window)) ;;
      ret (PrimFloat.sub hi lo)
  end.

(** Two signals sample by sample: any two samples of the one compare as
    the two samples at the same places of the other, and are the same
    distance apart. *)
Definition coherent (pairs : list (float * float)) : Prop :=
  forall u u' v v',
    In (u, u') pairs -> In (v, v') pairs ->
    PrimFloat.ltb u v = PrimFloat.ltb u' v' /\
    PrimFloat.leb u v = PrimFloat.leb u' v' /\
    PrimFloat.eqb u v = PrimFloat.eqb u' v' /\
    PrimFloat.sub u v = PrimFloat.sub u' v'.

Definition alike (x y : Signal) : Prop :=
  length x = length y /\ coherent (combine x y).

(** Five samples with peaks of 0.05 at the indices 1 and 3, and five with
    peaks of 1. *)
Definition faint_peaks : Signal :=
  [0; 0x1.999999999999ap-5; 0; 0x1.999999999999ap-5; 0]%float.

Definition clear_peaks : Signal := [0; 1; 0; 1; 0]%float.

(** The floats nearest to 0.2 and to 0.05, and one half. *)
Definition one_fifth : float := 0x1.999999999999ap-3%float.
Definition one_twentieth : float := 0x1.999999999999ap-5%float.
Definition one_half : float := 0x1p-1%float.

End Binary64.

(** * Properties *)

(** ** The outcome monad *)

Lemma bind_ret_l {A B} (a : A) (f : A -> Py B) : bind (ret a) f = f a.
Proof. unfold bind, ret. destruct (f a) as [out r]. reflexivity. Qed.

Lemma bind_return {A B} (out : list string) (a : A) (f : A -> Py B) :
  bind (out, Return a) f = ((out ++ fst (f a))%list, snd (f a)).
Proof. unfold bind. destruct (f a). reflexivity. Qed.

Lemma bind_raise {A B} (out : list string) (e : exn) (f : A -> Py B) :
  bind (out, Raise e) f = (out, Raise e).
Proof. reflexivity. Qed.

Lemma bind_ret_r {A} (m : Py A) : bind m (fun a => ret a) = m.
Proof.
  destruct m as [out [a | e]]; [|reflexivity].
  unfold bind, ret. now rewrite app_nil_r.
Qed.

Lemma getitem_nth_error {A} (l : list A) (k : nat) (a : A) :
  nth_error l k = Some a -> getitem l k = ret a.
Proof. unfold getitem. now intros ->. Qed.

(** ** Comparisons of samples *)

Lemma Qltb_lt (a b : Q) : Qltb a b = true <-> a < b.
Proof.
  unfold Qltb. rewrite negb_true_iff. split.
  - intros H. apply Qnot_le_lt. intros Hle.
    apply Qle_bool_iff in Hle. congruence.
  - intros H. destruct (Qle_bool b a) eqn:E; [|reflexivity].
    apply Qle_bool_iff in E. exfalso. exact (Qlt_not_le _ _ H E).
Qed.

Lemma Qltb_ge (a b : Q) : Qltb a b = false <-> b <= a.
Proof.
  unfold Qltb. rewrite negb_false_iff. apply Qle_bool_iff.
Qed.

Lemma Qltb_irrefl (a : Q) : Qltb a a = false.
Proof. apply Qltb_ge. apply Qle_refl. Qed.

Lemma Qeq_bool_le (a b : Q) :
  Qeq_bool a b = Qle_bool a b && Qle_bool b a.
Proof.
  apply eq_true_iff_eq. rewrite andb_true_iff, Qeq_bool_iff, !Qle_bool_iff.
  split.
  - intros H. rewrite H. split; apply Qle_refl.
  - intros [H1 H2]. now apply Qle_antisym.
Qed.

(** ** The maxima search *)

Lemma plateau_scan_bounds (fuel : nat) (x : Signal) (i i_ahead i_max : nat) :
  (i_ahead <= i_max)%nat ->
  (i_ahead <= plateau_scan fuel x i i_ahead i_max <= i_max)%nat.
Proof.
  revert i_ahead. induction fuel as [|fuel IH]; intros i_ahead Hle; simpl.
  - lia.
  - destruct (i_ahead <? i_max)%nat eqn:E; simpl; [|lia].
    apply Nat.ltb_lt in E.
    destruct (Qeq_bool (sample x i_ahead) (sample x i)); [|lia].
    specialize (IH (S i_ahead)). lia.
Qed.

Lemma plateau_end_bounds (x : Signal) (i i_max : nat) :
  (i < i_max)%nat -> (S i <= plateau_end x i i_max <= i_max)%nat.
Proof. intros H. unfold plateau_end. apply plateau_scan_bounds. lia. Qed.

(** The search is total: past [i_max - i] rounds, more fuel changes nothing. *)
Lemma maxima_loop_fuel (x : Signal) (i_max : nat) :
  forall fuel1 fuel2 i,
    (i_max - i <= fuel1)%nat -> (i_max - i <= fuel2)%nat ->
    maxima_loop fuel1 x i i_max = maxima_loop fuel2 x i i_max.
Proof.
  induction fuel1 as [|fuel1 IH]; intros fuel2 i H1 H2.
  - destruct fuel2 as [|fuel2]; [reflexivity|]. simpl.
    replace (i <? i_max)%nat with false; [reflexivity|].
    symmetry. apply Nat.ltb_ge. lia.
  - destruct fuel2 as [|fuel2]; simpl.
    + replace (i <? i_max)%nat with false; [reflexivity|].
      symmetry. apply Nat.ltb_ge. lia.
    + destruct (i <? i_max)%nat eqn:E; [|reflexivity].
      apply Nat.ltb_lt in E.
      pose proof (plateau_end_bounds x i i_max E) as Hb.
      destruct (Qltb (sample x (i - 1)) (sample x i)).
      * destruct (Qltb (sample x (plateau_end x i i_max)) (sample x i)).
        -- f_equal. apply IH; lia.
        -- apply IH; lia.
      * apply IH; lia.
Qed.

Lemma local_maxima_from (x : Signal) :
  local_maxima x = maxima_from x 1 (length x - 1).
Proof. reflexivity. Qed.

Lemma maxima_from_done (x : Signal) (i i_max : nat) :
  (i_max <= i)%nat -> maxima_from x i i_max = [].
Proof.
  intros H. unfold maxima_from. replace (i_max - i)%nat with O by lia.
  reflexivity.
Qed.

Lemma maxima_from_step (x : Signal) (i i_max : nat) :
  (i < i_max)%nat ->
  maxima_from x i i_max =
    if Qltb (sample x (i - 1)) (sample x i) then
      let i_ahead := plateau_end x i i_max in
      if Qltb (sample x i_ahead) (sample x i) then
        ((i + (i_ahead - 1)) / 2)%nat :: maxima_from x (S i_ahead) i_max
      else maxima_from x (S i) i_max
    else maxima_from x (S i) i_max.
Proof.
  intros H. unfold maxima_from.
  destruct (i_max - i)%nat as [|fuel] eqn:E; [lia|].
  simpl. apply Nat.ltb_lt in H as Hb. rewrite Hb.
  pose proof (plateau_end_bounds x i i_max H) as Hp.
  destruct (Qltb (sample x (i - 1)) (sample x i)).
  - destruct (Qltb (sample x (plateau_end x i i_max)) (sample x i)).
    + f_equal. apply maxima_loop_fuel; lia.
    + apply maxima_loop_fuel; lia.
  - apply maxima_loop_fuel; lia.
Qed.

(** Peaks come out in increasing index order, inside the signal. *)
Lemma increasing_from_weaken (lo lo' : nat) (l : list nat) :
  (lo' <= lo)%nat -> increasing_from lo l -> increasing_from lo' l.
Proof.
  intros Hle H. destruct H; constructor; [lia | assumption].
Qed.

Lemma increasing_from_filter (f : nat -> bool) (lo : nat) (l : list nat) :
  increasing_from lo l -> increasing_from lo (filter f l).
Proof.
  intros H. induction H as [lo | lo p l Hp H IH]; simpl.
  - constructor.
  - destruct (f p).
    + constructor; assumption.
    + apply increasing_from_weaken with (lo := S p); [lia | assumption].
Qed.

Lemma increasing_from_lt (lo p t : nat) (l : list nat) :
  increasing_from lo (p :: t :: l) -> (lo <= p /\ p < t)%nat.
Proof.
  intros H. inversion H as [| ? ? ? Hp H']; subst.
  inversion H' as [| ? ? ? Ht _]; subst. lia.
Qed.

Lemma increasing_from_In (lo : nat) (l : list nat) (p : nat) :
  increasing_from lo l -> In p l -> (lo <= p)%nat.
Proof.
  intros H. induction H as [lo | lo q l Hq H IH]; simpl; [tauto|].
  intros [-> | Hin]; [assumption|]. specialize (IH Hin). lia.
Qed.

Lemma midpoint_bounds (left right : nat) :
  (left <= right)%nat ->
  (left <= (left + right) / 2 <= right)%nat.
Proof.
  intros H. split.
  - apply Nat.div_le_lower_bound; lia.
  - apply Nat.Div0.div_le_upper_bound. lia.
Qed.

Lemma maxima_loop_increasing (x : Signal) (i_max : nat) :
  forall fuel i, increasing_from i (maxima_loop fuel x i i_max).
Proof.
  induction fuel as [|fuel IH]; intros i; cbn [maxima_loop]; [constructor|].
  destruct (i <? i_max)%nat eqn:E; [|constructor].
  apply Nat.ltb_lt in E.
  pose proof (plateau_end_bounds x i i_max E) as Hb.
  destruct (Qltb (sample x (i - 1)) (sample x i)).
  - destruct (Qltb (sample x (plateau_end x i i_max)) (sample x i)).
    + pose proof (midpoint_bounds i (plateau_end x i i_max - 1)) as Hm.
      constructor; [lia|].
      apply increasing_from_weaken with (lo := S (plateau_end x i i_max));
        [lia | apply IH].
    + apply increasing_from_weaken with (lo := S i); [lia | apply IH].
  - apply increasing_from_weaken with (lo := S i); [lia | apply IH].
Qed.

Lemma maxima_loop_below (x : Signal) (i_max : nat) :
  forall fuel i p, In p (maxima_loop fuel x i i_max) -> (p < i_max)%nat.
Proof.
  induction fuel as [|fuel IH]; intros i p; cbn [maxima_loop In]; [tauto|].
  destruct (i <? i_max)%nat eqn:E; [|cbn [In]; tauto].
  apply Nat.ltb_lt in E.
  pose proof (plateau_end_bounds x i i_max E) as Hb.
  destruct (Qltb (sample x (i - 1)) (sample x i)).
  - destruct (Qltb (sample x (plateau_end x i i_max)) (sample x i)).
    + pose proof (midpoint_bounds i (plateau_end x i i_max - 1)) as Hm.
      intros [<- | Hin]; [lia | eapply IH; eassumption].
    + apply IH.
  - apply IH.
Qed.

Lemma find_peaks_increasing (x : Signal) (prominence : Q) :
  increasing_from 1 (find_peaks x prominence).
Proof.
  unfold find_peaks, local_maxima.
  apply increasing_from_filter, maxima_loop_increasing.
Qed.

Lemma find_peaks_in_range (x : Signal) (prominence : Q) (p : nat) :
  In p (find_peaks x prominence) -> (1 <= p < length x - 1)%nat.
Proof.
  intros Hin. split.
  - eapply increasing_from_In; [apply find_peaks_increasing | eassumption].
  - unfold find_peaks in Hin. apply filter_In in Hin as [Hin _].
    eapply maxima_loop_below. exact Hin.
Qed.

(** ** The peak detector on small signals *)

(** A flat top counts once, at its middle sample; a rise that lasts to the
    end of the signal is no peak. *)
Example local_maxima_plateau :
  local_maxima [0; 1; 1; 1; 0; 2; 2; 3; 1; 1; 4; 4] = [2; 7]%nat.
Proof. reflexivity. Qed.

(** The prominence is the height above the higher of the two lowest points
    reached on either side before a higher sample. *)
Example peak_prominence_between_higher :
  peak_prominence [0; 1; 1.04; 1; 0.5; 2; 0] 2 == 0.54 /\
  peak_prominence [0; 1; 1.04; 1; 0.5; 2; 0] 5 == 2.
Proof. split; reflexivity. Qed.

(** Peaks below the threshold are dropped. *)
Example find_peaks_threshold :
  local_maxima [0; 0.04; 0; 1; 0] = [1; 3]%nat /\
  find_peaks [0; 0.04; 0; 1; 0] min_prominence = [3]%nat.
Proof. split; reflexivity. Qed.

(** ** MEP classification and timing *)

Lemma is_mep_length (x : Signal) :
  is_mep x = (1 <? length (find_peaks x min_prominence))%nat.
Proof. unfold is_mep. now destruct (1 <? _)%nat. Qed.

Lemma find_peaks_In (x : Signal) (prominence : Q) (p : nat) :
  In p (find_peaks x prominence) <->
  In p (local_maxima x) /\ prominence <= peak_prominence x p.
Proof.
  unfold find_peaks. rewrite filter_In, Qle_bool_iff. reflexivity.
Qed.

Lemma two_peaks_shape (x : Signal) :
  is_mep x = true ->
  exists p t rest, find_peaks x min_prominence = p :: t :: rest.
Proof.
  rewrite is_mep_length. intros H. apply Nat.ltb_lt in H.
  destruct (find_peaks x min_prominence) as [|p [|t rest]];
    simpl in H; try lia.
  now exists p, t, rest.
Qed.

(** C2: [is_mep] answers true exactly when the search on the signal itself,
    with prominence at least 0.05, finds more than one peak; with fewer than
    two qualifying peaks the answer is false. *)
Theorem is_mep_iff_more_than_one_peak (x : Signal) :
  (is_mep x = true <-> (1 < length (find_peaks x min_prominence))%nat) /\
  ((length (find_peaks x min_prominence) < 2)%nat -> is_mep x = false) /\
  (forall p, In p (find_peaks x min_prominence) <->
             In p (local_maxima x) /\ 0.05 <= peak_prominence x p).
Proof.
  split; [|split].
  - rewrite is_mep_length. apply Nat.ltb_lt.
  - intros H. rewrite is_mep_length. apply Nat.ltb_ge. lia.
  - intros p. apply find_peaks_In.
Qed.

Lemma is_mep_iff_more_than_one_peak_witness :
  is_mep [0; 1; 0] = false.
Proof.
  apply (proj1 (proj2 (is_mep_iff_more_than_one_peak [0; 1; 0]))).
  vm_compute. lia.
Defined.

(** C3: with two or more qualifying peaks [find_mep_timing] returns the
    index of the second one; when [is_mep] says no, it returns the empty
    list as a value (after printing its message) and raises nothing. *)
Theorem find_mep_timing_second_peak (x : Signal) :
  ((2 <= length (find_peaks x min_prominence))%nat ->
   is_mep x = true /\
   exists p t rest,
     find_peaks x min_prominence = p :: t :: rest /\
     find_mep_timing x = ([], Return (PeakIndex t))) /\
  (is_mep x = false ->
   find_mep_timing x = (["No MEP detected"%string], Return EmptyList)).
Proof.
  split.
  - intros H.
    assert (Hm : is_mep x = true).
    { rewrite is_mep_length. apply Nat.ltb_lt. lia. }
    split; [exact Hm|].
    destruct (two_peaks_shape x Hm) as (p & t & rest & E).
    exists p, t, rest. split; [exact E|].
    unfold find_mep_timing. rewrite Hm, E. reflexivity.
  - intros H. unfold find_mep_timing. rewrite H. reflexivity.
Qed.

Lemma find_mep_timing_second_peak_witness :
  find_mep_timing [0; 0; 0] =
    (["No MEP detected"%string], Return EmptyList) /\
  is_mep [0; 1; 0; 1; 0] = true.
Proof.
  split.
  - apply (proj2 (find_mep_timing_second_peak [0; 0; 0])). reflexivity.
  - apply (proj1 (find_mep_timing_second_peak [0; 1; 0; 1; 0])).
    vm_compute. lia.
Defined.

(** C10: when [is_mep] holds, [find_tms_pulse] takes its answer from the
    signal itself (the search on the negated signal is not run), returns
    the first qualifying peak, and that index is strictly below the one
    [find_mep_timing] returns. *)
Theorem pulse_before_mep (x : Signal) :
  is_mep x = true ->
  (length (find_peaks x min_prominence) =? 0)%nat = false /\
  exists p t rest,
    find_peaks x min_prominence = p :: t :: rest /\
    find_tms_pulse x = ([], Return p) /\
    find_mep_timing x = ([], Return (PeakIndex t)) /\
    (p < t)%nat.
Proof.
  intros Hm. destruct (two_peaks_shape x Hm) as (p & t & rest & E).
  split; [now rewrite E|].
  exists p, t, rest. split; [exact E|]. repeat split.
  - unfold find_tms_pulse. rewrite E. reflexivity.
  - unfold find_mep_timing. rewrite Hm, E. reflexivity.
  - pose proof (find_peaks_increasing x min_prominence) as Hi.
    rewrite E in Hi. apply increasing_from_lt in Hi. lia.
Qed.

Lemma pulse_before_mep_witness :
  exists p t rest,
    find_peaks [0; 1; 0; 1; 0] min_prominence = p :: t :: rest /\
    find_tms_pulse [0; 1; 0; 1; 0] = ([], Return p) /\
    find_mep_timing [0; 1; 0; 1; 0] = ([], Return (PeakIndex t)) /\
    (p < t)%nat.
Proof.
  apply (pulse_before_mep [0; 1; 0; 1; 0]). reflexivity.
Defined.

(** ** Signals without a rise, and single deflections *)

Lemma maxima_from_no_rise (x : Signal) (i_max : nat) :
  forall d i,
    (forall j, (i <= j < i + d)%nat ->
               Qltb (sample x (j - 1)) (sample x j) = false) ->
    maxima_from x i i_max = maxima_from x (i + d) i_max.
Proof.
  induction d as [|d IH]; intros i Hflat.
  - now rewrite Nat.add_0_r.
  - destruct (Nat.le_gt_cases i_max i) as [Hdone | Hlt].
    + rewrite !maxima_from_done by lia. reflexivity.
    + rewrite maxima_from_step by assumption.
      rewrite Hflat by lia.
      replace (i + S d)%nat with (S i + d)%nat by lia.
      apply IH. intros j Hj. apply Hflat. lia.
Qed.

Lemma maxima_from_flat_tail (x : Signal) (i i_max : nat) :
  (forall j, (i <= j)%nat -> Qltb (sample x (j - 1)) (sample x j) = false) ->
  maxima_from x i i_max = [].
Proof.
  intros Hflat.
  rewrite (maxima_from_no_rise x i_max i_max i).
  - apply maxima_from_done. lia.
  - intros j Hj. apply Hflat. lia.
Qed.

Lemma sample_flat (n i : nat) : sample (flat n) i = 0.
Proof. unfold sample, flat. apply nth_repeat. Qed.

Lemma local_maxima_flat (n : nat) : local_maxima (flat n) = [].
Proof.
  rewrite local_maxima_from. apply maxima_from_flat_tail.
  intros j _. now rewrite !sample_flat.
Qed.

Lemma negate_flat (n : nat) : negate (flat n) = flat n.
Proof.
  unfold negate, flat. induction n as [|n IH]; simpl; [reflexivity|].
  now rewrite IH.
Qed.

Lemma find_peaks_flat (n : nat) (prominence : Q) :
  find_peaks (flat n) prominence = [].
Proof. unfold find_peaks. now rewrite local_maxima_flat. Qed.

Lemma spike_length (p q : nat) (v : Q) :
  length (spike p q v) = (p + S q)%nat.
Proof.
  unfold spike. rewrite length_app. simpl. now rewrite !repeat_length.
Qed.

Lemma sample_spike_at (p q : nat) (v : Q) : sample (spike p q v) p = v.
Proof.
  unfold sample, spike. rewrite app_nth2; rewrite repeat_length; [|lia].
  now rewrite Nat.sub_diag.
Qed.

Lemma sample_spike_off (p q : nat) (v : Q) (i : nat) :
  i <> p -> sample (spike p q v) i = 0.
Proof.
  intros Hi. unfold sample, spike.
  destruct (Nat.lt_ge_cases i p) as [Hlt | Hge].
  - rewrite app_nth1 by (rewrite repeat_length; lia). apply nth_repeat.
  - rewrite app_nth2; rewrite repeat_length; [|lia].
    destruct (i - p)%nat as [|k] eqn:E; [lia|]. simpl. apply nth_repeat.
Qed.

Lemma negate_spike (p q : nat) (v : Q) :
  negate (spike p q v) = spike p q (- v).
Proof.
  unfold negate, spike. rewrite map_app. simpl.
  change (flat p) with (repeat 0 p). f_equal.
  - exact (negate_flat p).
  - f_equal. exact (negate_flat q).
Qed.

Section Deflection.

Variables (p q : nat) (v : Q).
Hypothesis p_inside : (1 <= p)%nat.
Hypothesis q_inside : (1 <= q)%nat.

Let x := spike p q v.

Lemma spike_no_rise_off (j : nat) :
  (j < p \/ S p < j)%nat -> Qltb (sample x (j - 1)) (sample x j) = false.
Proof.
  intros Hj. unfold x. rewrite !sample_spike_off by lia.
  apply Qltb_irrefl.
Qed.

Lemma spike_maxima_up :
  0 < v -> local_maxima x = [p].
Proof.
  intros Hv. rewrite local_maxima_from. unfold x.
  rewrite spike_length. replace (p + S q - 1)%nat with (p + q)%nat by lia.
  rewrite (maxima_from_no_rise _ _ (p - 1) 1)
    by (intros j Hj; apply spike_no_rise_off; lia).
  replace (1 + (p - 1))%nat with p by lia.
  rewrite maxima_from_step by lia.
  assert (Hend : plateau_end (spike p q v) p (p + q) = S p).
  { unfold plateau_end. destruct (p + q - S p)%nat as [|fuel]; simpl.
    - reflexivity.
    - rewrite sample_spike_at, sample_spike_off by lia.
      replace (Qeq_bool 0 v) with false; [now rewrite andb_false_r|].
      symmetry. destruct (Qeq_bool 0 v) eqn:E; [|reflexivity].
      apply Qeq_bool_iff in E. rewrite <- E in Hv.
      now apply Qlt_irrefl in Hv. }
  rewrite Hend. cbv zeta.
  rewrite sample_spike_at, !sample_spike_off by lia.
  assert (Hup : Qltb 0 v = true) by now apply Qltb_lt.
  rewrite Hup.
  replace ((p + (S p - 1)) / 2)%nat with p.
  - f_equal. apply maxima_from_flat_tail.
    intros j Hj. apply spike_no_rise_off. lia.
  - replace (p + (S p - 1))%nat with (p * 2)%nat by lia.
    now rewrite Nat.div_mul.
Qed.

Lemma spike_maxima_down :
  v < 0 -> local_maxima x = [].
Proof.
  intros Hv. rewrite local_maxima_from. unfold x.
  rewrite spike_length. replace (p + S q - 1)%nat with (p + q)%nat by lia.
  assert (Hdown : Qltb 0 v = false) by (apply Qltb_ge; now apply Qlt_le_weak).
  assert (Hup : Qltb v 0 = true) by now apply Qltb_lt.
  rewrite (maxima_from_no_rise _ _ p 1).
  2:{ intros j Hj. destruct (Nat.eq_dec j p) as [-> | Hne].
      - now rewrite sample_spike_at, sample_spike_off by lia.
      - apply spike_no_rise_off. lia. }
  replace (1 + p)%nat with (S p) by lia.
  destruct (Nat.le_gt_cases (p + q) (S p)) as [Hdone | Hlt].
  { now apply maxima_from_done. }
  rewrite maxima_from_step by assumption.
  replace (S p - 1)%nat with p by lia.
  rewrite sample_spike_at, !sample_spike_off by lia.
  rewrite Hup. cbv zeta.
  rewrite (sample_spike_off p q v (plateau_end _ _ _))
    by (pose proof (plateau_end_bounds (spike p q v) (S p) (p + q) Hlt); lia).
  rewrite Qltb_irrefl.
  apply maxima_from_flat_tail.
  intros j Hj. apply spike_no_rise_off. lia.
Qed.

Lemma spike_at : sample x p = v.
Proof. apply sample_spike_at. Qed.

Lemma spike_off (i : nat) : i <> p -> sample x i = 0.
Proof. apply sample_spike_off. Qed.

Lemma spike_left_zero (m : Q) :
  0 < v -> m = v \/ m = 0 ->
  forall n, (n <= p)%nat -> left_scan x p n m = if (n =? 0)%nat then m else 0.
Proof.
  intros Hv Hm n. revert m Hm.
  induction n as [|i IH]; intros m Hm Hn; cbn [left_scan Nat.eqb];
    [reflexivity|].
  rewrite spike_at, spike_off by lia.
  replace (Qle_bool 0 v) with true
    by (symmetry; apply Qle_bool_iff; now apply Qlt_le_weak).
  assert (Hlow : lower 0 m = 0).
  { unfold lower. destruct Hm as [-> | ->].
    - replace (Qltb 0 v) with true; [reflexivity|].
      symmetry. now apply Qltb_lt.
    - now rewrite Qltb_irrefl. }
  rewrite Hlow. rewrite IH by (auto; lia).
  now destruct (i =? 0)%nat.
Qed.

Lemma spike_right_zero :
  0 < v ->
  forall fuel i, (p < i)%nat -> right_scan fuel x p i (p + q) 0 = 0.
Proof.
  intros Hv. induction fuel as [|fuel IH]; intros i Hi; cbn [right_scan];
    [reflexivity|].
  rewrite spike_off by lia.
  destruct ((i <=? p + q)%nat && Qle_bool 0 (sample x p)); [|reflexivity].
  unfold lower. rewrite Qltb_irrefl. apply IH. lia.
Qed.

Lemma spike_right_first (fuel : nat) :
  0 < v -> (1 <= fuel)%nat -> right_scan fuel x p (S p) (p + q) v = 0.
Proof.
  intros Hv Hfuel. destruct fuel as [|fuel]; [lia|]. cbn [right_scan].
  replace (S p <=? p + q)%nat with true
    by (symmetry; apply Nat.leb_le; lia).
  rewrite spike_at, spike_off by lia.
  replace (Qle_bool 0 v) with true
    by (symmetry; apply Qle_bool_iff; now apply Qlt_le_weak).
  cbn [andb]. unfold lower.
  replace (Qltb 0 v) with true by (symmetry; now apply Qltb_lt).
  apply spike_right_zero; [assumption | lia].
Qed.

Lemma spike_prominence :
  0 < v -> peak_prominence x p = v - Qmax 0 0.
Proof.
  intros Hv. unfold peak_prominence.
  assert (Hself : Qle_bool v v = true) by (apply Qle_bool_iff, Qle_refl).
  assert (Hl : left_min x p = 0).
  { unfold left_min. cbn [left_scan].
    rewrite spike_at, Hself. unfold lower. rewrite Qltb_irrefl.
    rewrite spike_left_zero by (auto; lia).
    destruct (Nat.eqb_spec p 0); [lia | reflexivity]. }
  assert (Hr : right_min x p = 0).
  { unfold right_min.
    replace (length x) with (p + S q)%nat
      by (symmetry; apply spike_length).
    replace (p + S q - p)%nat with (S q) by lia.
    replace (p + S q - 1)%nat with (p + q)%nat by lia.
    cbn [right_scan]. rewrite spike_at, Hself.
    replace (p <=? p + q)%nat with true by (symmetry; apply Nat.leb_le; lia).
    cbn [andb]. unfold lower at 1. rewrite Qltb_irrefl.
    apply spike_right_first; [assumption | lia]. }
  rewrite Hl, Hr. now rewrite spike_at.
Qed.

Lemma find_peaks_spike_up :
  0.05 <= v -> find_peaks x min_prominence = [p].
Proof.
  intros Hv.
  assert (Hpos : 0 < v).
  { apply Qlt_le_trans with (y := 0.05); [reflexivity | assumption]. }
  unfold find_peaks. rewrite spike_maxima_up by assumption.
  cbn [filter]. rewrite spike_prominence by assumption.
  replace (Qle_bool min_prominence (v - Qmax 0 0)) with true; [reflexivity|].
  symmetry. apply Qle_bool_iff.
  change (Qmax 0 0) with 0. unfold Qminus.
  setoid_replace (v + - 0) with v by ring. exact Hv.
Qed.

Lemma find_peaks_spike_down :
  v < 0 -> find_peaks x min_prominence = [].
Proof.
  intros Hv. unfold find_peaks. now rewrite spike_maxima_down.
Qed.

End Deflection.

(** ** Locating the pulse *)

Lemma find_tms_pulse_direct (x : Signal) (p : nat) (rest : list nat) :
  find_peaks x min_prominence = p :: rest ->
  find_tms_pulse x = ([], Return p).
Proof. intros E. unfold find_tms_pulse. now rewrite E. Qed.

Lemma find_tms_pulse_fallback (x : Signal) :
  find_peaks x min_prominence = [] ->
  find_tms_pulse x = getitem (find_peaks (negate x) min_prominence) 0.
Proof. intros E. unfold find_tms_pulse. now rewrite E. Qed.

(** C6: [find_tms_pulse] searches the signal first and the negated signal
    only when that search found nothing, and returns the first peak of the
    search that found one.  A lone upward deflection of at least 0.05 on a
    zero baseline gives its own index, a lone downward one the index of the
    trough. *)
Theorem find_tms_pulse_first_peak :
  (forall x p rest,
      find_peaks x min_prominence = p :: rest ->
      find_tms_pulse x = ([], Return p)) /\
  (forall x p rest,
      find_peaks x min_prominence = [] ->
      find_peaks (negate x) min_prominence = p :: rest ->
      find_tms_pulse x = ([], Return p)) /\
  (forall p q v,
      (1 <= p)%nat -> (1 <= q)%nat -> 0.05 <= v ->
      find_tms_pulse (spike p q v) = ([], Return p)) /\
  (forall p q v,
      (1 <= p)%nat -> (1 <= q)%nat -> v <= - 0.05 ->
      find_peaks (spike p q v) min_prominence = [] /\
      find_tms_pulse (spike p q v) = ([], Return p)).
Proof.
  split; [|split; [|split]].
  - apply find_tms_pulse_direct.
  - intros x p rest E En. rewrite find_tms_pulse_fallback by assumption.
    now rewrite En.
  - intros p q v Hp Hq Hv.
    apply find_tms_pulse_direct with (rest := []).
    now apply find_peaks_spike_up.
  - intros p q v Hp Hq Hv.
    assert (Hneg : v < 0).
    { apply Qle_lt_trans with (y := - 0.05); [assumption | reflexivity]. }
    assert (E : find_peaks (spike p q v) min_prominence = []).
    { now apply find_peaks_spike_down. }
    split; [exact E|].
    rewrite find_tms_pulse_fallback by assumption.
    rewrite negate_spike, find_peaks_spike_up; [reflexivity | | | ]; try assumption.
    apply Qopp_le_compat in Hv. exact Hv.
Qed.

Lemma find_tms_pulse_first_peak_witness :
  find_tms_pulse (spike 50 149 1) = ([], Return 50%nat) /\
  find_tms_pulse (spike 50 149 (- 1)) = ([], Return 50%nat).
Proof.
  destruct find_tms_pulse_first_peak as (_ & _ & Hup & Hdown). split.
  - apply Hup; [lia | lia | vm_compute; discriminate].
  - apply Hdown; [lia | lia | vm_compute; discriminate].
Defined.

(** C7 as the specification has it fails: the flat signal of 200 zeros ends
    in the error of reading element 0 of an empty array, and in no other. *)
Lemma find_tms_pulse_flat_is_empty_access :
  ~ (exists e, snd (find_tms_pulse (flat 200)) = Raise e /\ e <> IndexError).
Proof.
  intros (e & He & Hne). vm_compute in He. congruence.
Qed.

(** C7, amended: when neither the signal nor its negation has a qualifying
    peak, [find_tms_pulse] raises the IndexError of [peaks[0]] on the empty
    array; so it does on every flat zero signal, where [is_mep] is false. *)
Theorem find_tms_pulse_no_peak :
  (forall x,
      find_peaks x min_prominence = [] ->
      find_peaks (negate x) min_prominence = [] ->
      find_tms_pulse x = ([], Raise IndexError)) /\
  (forall n,
      find_tms_pulse (flat n) = ([], Raise IndexError) /\
      is_mep (flat n) = false).
Proof.
  split.
  - intros x E En. rewrite find_tms_pulse_fallback by assumption.
    now rewrite En.
  - intros n. split.
    + rewrite find_tms_pulse_fallback by apply find_peaks_flat.
      now rewrite negate_flat, find_peaks_flat.
    + rewrite is_mep_length, find_peaks_flat. reflexivity.
Qed.

Lemma find_tms_pulse_no_peak_witness :
  find_tms_pulse [0; 1; 1] = ([], Raise IndexError).
Proof.
  apply (proj1 find_tms_pulse_no_peak); reflexivity.
Defined.

(** ** Slices and windows *)

Lemma samples_between_from_firstn (x : Signal) :
  forall i lo hi : Z,
    samples_between_from x i lo hi =
    firstn (Z.to_nat (hi - Z.max lo i)) (skipn (Z.to_nat (lo - i)) x).
Proof.
  induction x as [|v x IH]; intros i lo hi; cbn [samples_between_from].
  - now rewrite skipn_nil, firstn_nil.
  - rewrite IH.
    destruct (lo <=? i)%Z eqn:Elo; [apply Z.leb_le in Elo | apply Z.leb_gt in Elo];
      cbn [andb].
    + replace (Z.to_nat (lo - i)) with O by lia.
      replace (Z.to_nat (lo - (i + 1))) with O by lia.
      cbn [skipn].
      destruct (i <? hi)%Z eqn:Ehi;
        [apply Z.ltb_lt in Ehi | apply Z.ltb_ge in Ehi].
      * replace (Z.to_nat (hi - Z.max lo i))
          with (S (Z.to_nat (hi - Z.max lo (i + 1)))) by lia.
        reflexivity.
      * replace (Z.to_nat (hi - Z.max lo i)) with O by lia.
        replace (Z.to_nat (hi - Z.max lo (i + 1))) with O by lia.
        reflexivity.
    + replace (Z.to_nat (lo - i)) with (S (Z.to_nat (lo - (i + 1)))) by lia.
      cbn [skipn].
      replace (Z.max lo (i + 1)) with (Z.max lo i) by lia.
      reflexivity.
Qed.

Lemma samples_between_from_In (x : Signal) (v : Q) :
  forall i lo hi : Z,
    In v (samples_between_from x i lo hi) <->
    exists k, nth_error x k = Some v /\ (lo <= i + Z.of_nat k < hi)%Z.
Proof.
  induction x as [|u x IH]; intros i lo hi; cbn [samples_between_from].
  - split; [intros [] | intros (k & Hk & _)]. now destruct k.
  - assert (Hrest : In v (samples_between_from x (i + 1) lo hi) <->
                    exists k, nth_error (u :: x) (S k) = Some v /\
                              (lo <= i + Z.of_nat (S k) < hi)%Z).
    { rewrite IH. split; intros (k & Hk & Hr); exists k; (split; [exact Hk | lia]). }
    destruct ((lo <=? i) && (i <? hi))%Z eqn:E.
    + apply andb_true_iff in E as [E1 E2].
      apply Z.leb_le in E1. apply Z.ltb_lt in E2.
      cbn [In]. rewrite Hrest. split.
      * intros [-> | (k & Hk)]; [exists O | exists (S k); exact Hk].
        split; [reflexivity | lia].
      * intros ([|k] & Hk & Hr); [left | right; exists k; now split].
        simpl in Hk. congruence.
    + rewrite Hrest. split.
      * intros (k & Hk). exists (S k). exact Hk.
      * intros ([|k] & Hk & Hr); [|exists k; now split].
        apply andb_false_iff in E as [E | E];
          [apply Z.leb_gt in E | apply Z.ltb_ge in E]; lia.
Qed.

Lemma slice_bound_range (n i : Z) :
  (0 <= n)%Z -> (0 <= slice_bound n i <= n)%Z.
Proof.
  intros Hn. unfold slice_bound. destruct (i <? 0)%Z eqn:E;
    [apply Z.ltb_lt in E | apply Z.ltb_ge in E]; lia.
Qed.

(** A slice never reads outside the signal: it is the run of samples
    between its two bounds, both brought into [0, length]. *)
Lemma slice_samples_between (x : Signal) (a b : Z) :
  slice x a b =
  samples_between x (slice_bound (Z.of_nat (length x)) a)
                    (slice_bound (Z.of_nat (length x)) b).
Proof.
  unfold slice, samples_between. rewrite samples_between_from_firstn.
  pose proof (slice_bound_range (Z.of_nat (length x)) a) as Ha.
  pose proof (slice_bound_range (Z.of_nat (length x)) b) as Hb.
  f_equal; [lia|]. f_equal. lia.
Qed.

Lemma samples_between_clip (x : Signal) (lo hi : Z) :
  (0 <= lo)%Z ->
  samples_between x lo (Z.min hi (Z.of_nat (length x))) =
  samples_between x lo hi.
Proof.
  intros Hlo. unfold samples_between. rewrite !samples_between_from_firstn.
  destruct (Z.le_gt_cases hi (Z.of_nat (length x))) as [H | H].
  - now rewrite Z.min_l.
  - rewrite Z.min_r by lia.
    rewrite !firstn_all2; [reflexivity | |]; rewrite length_skipn; lia.
Qed.

Lemma samples_between_empty (x : Signal) (lo hi : Z) :
  (hi <= lo)%Z -> samples_between x lo hi = [].
Proof.
  intros H. unfold samples_between. rewrite samples_between_from_firstn.
  replace (Z.to_nat (hi - Z.max lo 0)) with O by lia. reflexivity.
Qed.

Lemma Qmax_cases (a b : Q) : Qmax a b = a \/ Qmax a b = b.
Proof.
  unfold Qmax, GenericMinMax.gmax. destruct (a ?= b); auto.
Qed.

Lemma Qmin_cases (a b : Q) : Qmin a b = a \/ Qmin a b = b.
Proof.
  unfold Qmin, GenericMinMax.gmin. destruct (a ?= b); auto.
Qed.

Lemma fold_max_spec (l : list Q) :
  forall v,
    In (fold_left Qmax l v) (v :: l) /\
    forall u, In u (v :: l) -> u <= fold_left Qmax l v.
Proof.
  induction l as [|w l IH]; intros v; cbn [fold_left].
  - split; [now left|]. intros u [<- | []]. apply Qle_refl.
  - destruct (IH (Qmax v w)) as [Hin Hle]. split.
    + destruct Hin as [Hin | Hin]; [|right; now right].
      rewrite <- Hin. destruct (Qmax_cases v w) as [-> | ->];
        [now left | right; now left].
    + intros u [<- | [<- | Hu]].
      * apply Qle_trans with (y := Qmax v w);
          [apply Q.le_max_l | apply Hle; now left].
      * apply Qle_trans with (y := Qmax v w);
          [apply Q.le_max_r | apply Hle; now left].
      * apply Hle. now right.
Qed.

Lemma fold_min_spec (l : list Q) :
  forall v,
    In (fold_left Qmin l v) (v :: l) /\
    forall u, In u (v :: l) -> fold_left Qmin l v <= u.
Proof.
  induction l as [|w l IH]; intros v; cbn [fold_left].
  - split; [now left|]. intros u [<- | []]. apply Qle_refl.
  - destruct (IH (Qmin v w)) as [Hin Hle]. split.
    + destruct Hin as [Hin | Hin]; [|right; now right].
      rewrite <- Hin. destruct (Qmin_cases v w) as [-> | ->];
        [now left | right; now left].
    + intros u [<- | [<- | Hu]].
      * apply Qle_trans with (y := Qmin v w);
          [apply Hle; now left | apply Q.le_min_l].
      * apply Qle_trans with (y := Qmin v w);
          [apply Hle; now left | apply Q.le_min_r].
      * apply Hle. now right.
Qed.

(** On a window with at least one sample the amplitude is the largest
    sample of the window minus the smallest. *)
Lemma peak_to_peak_spec (kind : container) (l : list Q) :
  l <> [] ->
  exists hi lo,
    peak_to_peak kind l = ([], Return (Num (hi - lo))) /\
    In hi l /\ In lo l /\
    forall v, In v l -> lo <= v <= hi.
Proof.
  destruct l as [|v l]; [congruence|]. intros _.
  exists (fold_left Qmax l v), (fold_left Qmin l v).
  destruct (fold_max_spec l v) as [Hmax_in Hmax].
  destruct (fold_min_spec l v) as [Hmin_in Hmin].
  repeat split; auto.
Qed.

(** On an empty window there is no amplitude: an array makes [np.max]
    raise, a column of the data frame gives nan. *)
Lemma peak_to_peak_empty :
  peak_to_peak Array [] = ([], Raise ValueError) /\
  peak_to_peak Series [] = ([], Return NaN).
Proof. split; reflexivity. Qed.

Lemma get_mep_size_at (kind : container) (x : Signal) (t : nat) :
  find_mep_timing x = ([], Return (PeakIndex t)) ->
  get_mep_size kind x =
  peak_to_peak kind (slice x (Z.of_nat t - 50) (Z.of_nat t + 50)).
Proof.
  intros Ht. unfold get_mep_size. rewrite Ht, bind_return.
  cbn [fst snd app]. unfold peak_to_peak.
  now destruct (bind _ _).
Qed.

Lemma find_mep_timing_in_range (x : Signal) (t : nat) :
  find_mep_timing x = ([], Return (PeakIndex t)) ->
  (2 <= t < length x - 1)%nat.
Proof.
  unfold find_mep_timing. destruct (is_mep x) eqn:Hm; cbn [negb];
    [|discriminate].
  destruct (two_peaks_shape x Hm) as (p & u & rest & E). rewrite E.
  cbn. intros H. injection H as <-.
  pose proof (find_peaks_increasing x min_prominence) as Hi.
  rewrite E in Hi. apply increasing_from_lt in Hi.
  assert (Hin : In u (find_peaks x min_prominence))
    by (rewrite E; right; now left).
  apply find_peaks_in_range in Hin. lia.
Qed.

(** ** The size of the MEP *)

Lemma window_samples_In (x : Signal) (t : nat) (v : Q) :
  In v (window_samples x t) <->
  exists w, (Z.of_nat t - 50 <= Z.of_nat w < Z.of_nat t + 50)%Z /\
            nth_error x w = Some v.
Proof.
  unfold window_samples, samples_between. rewrite samples_between_from_In.
  split; intros (w & H1 & H2); exists w; (split; [lia || assumption |]);
    lia || assumption.
Qed.

Lemma slice_window (x : Signal) (t : nat) :
  (50 <= t <= length x)%nat ->
  slice x (Z.of_nat t - 50) (Z.of_nat t + 50) = window_samples x t.
Proof.
  intros Ht. rewrite slice_samples_between. unfold window_samples, slice_bound.
  replace (Z.of_nat t - 50 <? 0)%Z with false by (symmetry; apply Z.ltb_ge; lia).
  replace (Z.of_nat t + 50 <? 0)%Z with false by (symmetry; apply Z.ltb_ge; lia).
  rewrite (Z.min_l (Z.of_nat t - 50)) by lia.
  apply samples_between_clip. lia.
Qed.

Lemma window_samples_nonempty (x : Signal) (t : nat) :
  (t < length x)%nat -> window_samples x t <> [].
Proof.
  intros Ht. destruct (nth_error x t) as [v|] eqn:E.
  - assert (Hin : In v (window_samples x t)).
    { apply window_samples_In. exists t. split; [lia | exact E]. }
    intros Hnil. now rewrite Hnil in Hin.
  - apply nth_error_None in E. lia.
Qed.

Lemma get_mep_size_late_peak (kind : container) (x : Signal) (t : nat) :
  find_mep_timing x = ([], Return (PeakIndex t)) ->
  (50 <= t)%nat ->
  get_mep_size kind x = peak_to_peak kind (window_samples x t).
Proof.
  intros Ht H50.
  pose proof (find_mep_timing_in_range x t Ht) as Hr.
  rewrite (get_mep_size_at kind x t Ht), slice_window by lia. reflexivity.
Qed.

Lemma get_mep_size_returns (kind : container) (x : Signal) (t : nat) :
  find_mep_timing x = ([], Return (PeakIndex t)) ->
  (50 <= t)%nat ->
  exists hi lo,
    get_mep_size kind x = ([], Return (Num (hi - lo))) /\
    In hi (window_samples x t) /\ In lo (window_samples x t) /\
    forall v, In v (window_samples x t) -> lo <= v <= hi.
Proof.
  intros Ht H50.
  pose proof (find_mep_timing_in_range x t Ht) as Hr.
  rewrite (get_mep_size_late_peak kind x t Ht H50).
  apply peak_to_peak_spec, window_samples_nonempty. lia.
Qed.

(** The scenario of the specification: the second pulse, at index 150, is
    the MEP, and its size is taken over the samples 100 to 199. *)
Example two_pulses_measured :
  is_mep two_pulses = true /\
  find_mep_timing two_pulses = ([], Return (PeakIndex 150)) /\
  (forall kind, get_mep_size kind two_pulses = ([], Return (Num 0.5))) /\
  window_samples two_pulses 150 = skipn 100 two_pulses.
Proof.
  split; [vm_compute; reflexivity|].
  split; [vm_compute; reflexivity|].
  split; [intros []; vm_compute; reflexivity|].
  vm_compute. reflexivity.
Qed.

(** C4: the size is to be the largest minus the smallest sample of the
    window [t - 50, t + 50) around the MEP peak.  The code misses that
    window when the peak is before sample 50: on a 60-sample signal whose
    second peak is at index 3 the slice [x[-47:53]] is the samples 13 to 52,
    which do not hold the peak, and the size returned is 0 where the window
    gives 5. *)
Theorem get_mep_size_early_peak_other_window :
  find_mep_timing early_peak_short = ([], Return (PeakIndex 3)) /\
  forall kind,
    get_mep_size kind early_peak_short = ([], Return (Num 0)) /\
    peak_to_peak kind (window_samples early_peak_short 3)
      = ([], Return (Num 5)) /\
    ~ feq (Num 0) (Num 5).
Proof.
  split; [vm_compute; reflexivity|].
  intros kind.
  split; [destruct kind; vm_compute; reflexivity|].
  split; [destruct kind; vm_compute; reflexivity|].
  intros E. discriminate E.
Qed.

(** Where the start of the slice is not negative, with [t >= 50], the code
    measures the window: [get_mep_size] returns the largest minus the
    smallest of the samples at the positions [w] with
    [t - 50 <= w < t + 50] that the signal has. *)
Lemma get_mep_size_window (kind : container) (x : Signal) (t : nat) :
  find_mep_timing x = ([], Return (PeakIndex t)) ->
  (50 <= t)%nat ->
  get_mep_size kind x = peak_to_peak kind (window_samples x t) /\
  (exists hi lo,
      get_mep_size kind x = ([], Return (Num (hi - lo))) /\
      In hi (window_samples x t) /\ In lo (window_samples x t) /\
      forall v, In v (window_samples x t) -> lo <= v <= hi) /\
  (forall v, In v (window_samples x t) <->
             exists w, (Z.of_nat t - 50 <= Z.of_nat w < Z.of_nat t + 50)%Z /\
                       nth_error x w = Some v).
Proof.
  intros Ht H50. split; [now apply get_mep_size_late_peak|]. split.
  - now apply get_mep_size_returns.
  - intros v. apply window_samples_In.
Qed.

Lemma get_mep_size_window_witness :
  get_mep_size Series two_pulses
  = peak_to_peak Series (window_samples two_pulses 150).
Proof.
  assert (H50 : (50 <= 150)%nat) by lia.
  refine (proj1 (get_mep_size_window Series two_pulses 150 _ H50)).
  vm_compute. reflexivity.
Defined.

(** The window is also measured on a signal so short that the slice, like
    the window, is the whole of it. *)
Lemma get_mep_size_short_signal (kind : container) (x : Signal) (t : nat) :
  find_mep_timing x = ([], Return (PeakIndex t)) ->
  (length x + t <= 50)%nat ->
  get_mep_size kind x = peak_to_peak kind (window_samples x t).
Proof.
  intros Ht Hshort.
  pose proof (find_mep_timing_in_range x t Ht) as Hr.
  rewrite (get_mep_size_at kind x t Ht), slice_samples_between.
  unfold window_samples, slice_bound.
  replace (Z.of_nat t - 50 <? 0)%Z with true
    by (symmetry; apply Z.ltb_lt; lia).
  replace (Z.of_nat t + 50 <? 0)%Z with false
    by (symmetry; apply Z.ltb_ge; lia).
  unfold samples_between. rewrite !samples_between_from_firstn.
  assert (Hs : forall k, (k <= 0)%Z -> skipn (Z.to_nat (k - 0)) x = x).
  { intros k Hk. now replace (Z.to_nat (k - 0)) with O by lia. }
  assert (Hf : forall k, (Z.of_nat (length x) <= k)%Z ->
                         firstn (Z.to_nat k) x = x).
  { intros k Hk. apply firstn_all2. lia. }
  rewrite !Hs by lia. rewrite !Hf by lia. reflexivity.
Qed.

(** C9: near the start of the signal the window is to be cut at the first
    sample, and the call is not to fail.  The code does neither: on an
    80-sample signal whose second peak is at index 3 the slice [x[-47:53]]
    is the samples 33 to 52 and the size returned is 0, where the window
    cut at the start, the samples 0 to 52, gives 2; on a 120-sample signal
    with the same peak the slice is empty, and the call raises ValueError
    on an array and returns nan on a column. *)
Theorem get_mep_size_early_peak_not_clipped :
  find_mep_timing early_peak_medium = ([], Return (PeakIndex 3)) /\
  slice early_peak_medium (3 - 50) (3 + 50)
    = samples_between early_peak_medium 33 53 /\
  (forall kind,
      get_mep_size kind early_peak_medium = ([], Return (Num 0)) /\
      peak_to_peak kind (samples_between early_peak_medium 0 53)
        = ([], Return (Num 2)) /\
      ~ feq (Num 0) (Num 2)) /\
  find_mep_timing early_peak_long = ([], Return (PeakIndex 3)) /\
  get_mep_size Array early_peak_long = ([], Raise ValueError) /\
  get_mep_size Series early_peak_long = ([], Return NaN) /\
  (forall kind,
      peak_to_peak kind (samples_between early_peak_long 0 53)
        = ([], Return (Num 1))).
Proof.
  split; [vm_compute; reflexivity|].
  split; [vm_compute; reflexivity|].
  split.
  { intros kind.
    split; [destruct kind; vm_compute; reflexivity|].
    split; [destruct kind; vm_compute; reflexivity|].
    intros E. discriminate E. }
  split; [vm_compute; reflexivity|].
  split; [vm_compute; reflexivity|].
  split; [vm_compute; reflexivity|].
  intros kind. destruct kind; vm_compute; reflexivity.
Qed.

(** What the slice reads, for every peak: samples of the signal only, up
    to the end of the signal.  With [t >= 50] that is the window
    [t - 50, min (t + 50) n), which is not empty.  With [t < 50] the start
    [t - 50] counts from the end, and once the signal has 100 samples or
    more nothing is read. *)
Lemma get_mep_size_window_bounds (x : Signal) (t : nat) :
  find_mep_timing x = ([], Return (PeakIndex t)) ->
  let n := Z.of_nat (length x) in
  let start :=
    if (t <? 50)%nat then Z.max (Z.of_nat t - 50 + n) 0
    else (Z.of_nat t - 50)%Z in
  let stop := Z.min (Z.of_nat t + 50) n in
  (0 <= start <= n /\ 0 <= stop <= n)%Z /\
  (forall kind,
      get_mep_size kind x = peak_to_peak kind (samples_between x start stop)) /\
  ((50 <= t)%nat ->
   (start < stop)%Z /\
   forall kind, exists v, get_mep_size kind x = ([], Return (Num v))) /\
  ((t < 50)%nat -> (100 <= length x)%nat ->
   samples_between x start stop = [] /\
   get_mep_size Array x = ([], Raise ValueError) /\
   get_mep_size Series x = ([], Return NaN)).
Proof.
  intros Ht n start stop.
  pose proof (find_mep_timing_in_range x t Ht) as Hr.
  assert (Hslice : slice x (Z.of_nat t - 50) (Z.of_nat t + 50) =
                   samples_between x start stop).
  { rewrite slice_samples_between. unfold slice_bound. fold n.
    replace (Z.of_nat t + 50 <? 0)%Z with false
      by (symmetry; apply Z.ltb_ge; lia).
    fold stop. f_equal. unfold start.
    destruct (Nat.ltb_spec t 50).
    - replace (Z.of_nat t - 50 <? 0)%Z with true
        by (symmetry; apply Z.ltb_lt; lia).
      reflexivity.
    - replace (Z.of_nat t - 50 <? 0)%Z with false
        by (symmetry; apply Z.ltb_ge; lia).
      lia. }
  assert (E : forall kind, get_mep_size kind x =
                           peak_to_peak kind (samples_between x start stop)).
  { intros kind. now rewrite (get_mep_size_at kind x t Ht), Hslice. }
  split; [|split; [exact E | split]].
  - unfold start, stop. destruct (Nat.ltb_spec t 50); lia.
  - intros H50.
    assert (Hcut : (start < stop)%Z).
    { unfold start, stop. destruct (Nat.ltb_spec t 50); lia. }
    split; [exact Hcut|]. intros kind.
    destruct (get_mep_size_returns kind x t Ht H50) as (hi & lo & Hv & _).
    now exists (hi - lo).
  - intros Hearly Hlong.
    assert (Hnone : samples_between x start stop = []).
    { apply samples_between_empty.
      unfold start, stop. destruct (Nat.ltb_spec t 50); lia. }
    split; [exact Hnone|]. rewrite !E, Hnone. exact peak_to_peak_empty.
Qed.

Lemma get_mep_size_window_bounds_witness :
  get_mep_size Series early_peak_long = ([], Return NaN) /\
  exists v, get_mep_size Series two_pulses = ([], Return (Num v)).
Proof.
  assert (H3 : (3 < 50)%nat) by lia.
  assert (H50 : (50 <= 150)%nat) by lia.
  assert (Hlong : (100 <= length early_peak_long)%nat) by (vm_compute; lia).
  split.
  - refine (proj2 (proj2 (proj2 (proj2 (proj2
      (get_mep_size_window_bounds early_peak_long 3 _))) H3 Hlong))).
    vm_compute. reflexivity.
  - refine (proj2 (proj1 (proj2 (proj2
      (get_mep_size_window_bounds two_pulses 150 _))) H50) Series).
    vm_compute. reflexivity.
Defined.

(** ** The recruitment curve *)

Lemma total_snoc (vs : list pyfloat) (v : pyfloat) :
  total (vs ++ [v]) = fadd (total vs) v.
Proof. unfold total. now rewrite fold_left_app. Qed.

Lemma trials_step {A} (results : list A) (start n : nat) (r : A) :
  nth_error results start = Some r ->
  trials results start (S n) = r :: trials results (S start) n.
Proof.
  unfold trials. revert start.
  induction results as [|r' results IH]; intros [|start] H;
    try discriminate H.
  - simpl in H. injection H as ->. reflexivity.
  - simpl in H. apply (IH start H).
Qed.

Lemma trials_app {A} (results : list A) (start n m : nat) :
  trials results start n ++ trials results (start + n) m =
  trials results start (n + m).
Proof.
  unfold trials. rewrite Nat.add_comm, <- skipn_skipn.
  generalize (skipn start results) as l. clear.
  induction n as [|n IH]; intros l; [reflexivity|].
  destruct l as [|r l]; simpl.
  - now destruct m.
  - now rewrite IH.
Qed.

Lemma present_app (l1 l2 : list (option pyfloat)) :
  present (l1 ++ l2) = present l1 ++ present l2.
Proof. apply flat_map_app. Qed.

Section Counting.

Variable mep_sizes : list (option pyfloat).

(** One counting loop over the trials [location + j, location + j + n),
    entered with the sum and the count of the sizes [vs]. *)
Lemma counting_loop (location : nat) :
  forall n j vs,
    (location + j + n <= length mep_sizes)%nat ->
    for_range (fun i => add_trial mep_sizes (location + i)) j n
              (total vs, length vs) =
    ret (total (vs ++ present (trials mep_sizes (location + j) n)),
         length (vs ++ present (trials mep_sizes (location + j) n))).
Proof.
  induction n as [|n IH]; intros j vs Hlen; cbn [for_range].
  - unfold trials. cbn [firstn present flat_map]. now rewrite app_nil_r.
  - destruct (nth_error mep_sizes (location + j)) as [r|] eqn:E.
    2:{ apply nth_error_None in E. lia. }
    unfold add_trial at 1. rewrite (getitem_nth_error _ _ _ E), bind_ret_l.
    rewrite (trials_step _ _ _ _ E).
    replace (S (location + j)) with (location + S j)%nat by lia.
    destruct r as [v|]; rewrite bind_ret_l; cbn [fst snd].
    + replace (fadd (total vs) v, S (length vs))
        with (total (vs ++ [v]), length (vs ++ [v])).
      * rewrite IH by lia. cbn [present flat_map].
        now rewrite <- !app_assoc.
      * rewrite total_snoc, length_app. cbn [length].
        now rewrite Nat.add_1_r.
    + rewrite IH by lia. reflexivity.
Qed.

Lemma counting_loop_that_fails (location : nat) :
  forall n j acc,
    (length mep_sizes < location + j + n)%nat ->
    (location + j <= length mep_sizes)%nat ->
    for_range (fun i => add_trial mep_sizes (location + i)) j n acc =
    raise IndexError.
Proof.
  induction n as [|n IH]; intros j acc Hshort Hin; cbn [for_range]; [lia|].
  destruct (nth_error mep_sizes (location + j)) as [r|] eqn:E.
  - assert (Hj : (location + j < length mep_sizes)%nat).
    { apply nth_error_Some. congruence. }
    unfold add_trial at 1. rewrite (getitem_nth_error _ _ _ E), bind_ret_l.
    destruct r as [v|]; rewrite bind_ret_l; apply IH; lia.
  - unfold add_trial, getitem. rewrite E. reflexivity.
Qed.

Lemma divide_counted (vs : list pyfloat) :
  divide (total vs) (length vs) =
  match vs with
  | [] => raise ZeroDivisionError
  | _ :: _ => ret (arithmetic_mean vs)
  end.
Proof. now destruct vs. Qed.

Hypothesis forty_two : length mep_sizes = 42%nat.

Lemma group_after (k : nat) :
  (k < 5)%nat ->
  trials_up_to mep_sizes k
  ++ present (trials mep_sizes (6 + S k * 6 + 0) 6) =
  trials_up_to mep_sizes (S k).
Proof.
  intros Hk. unfold trials_up_to. rewrite <- present_app.
  replace (6 + S k * 6 + 0)%nat with (12 + 6 * k)%nat by lia.
  rewrite trials_app. f_equal. f_equal. lia.
Qed.

Lemma trials_up_to_first : trials_up_to mep_sizes 1 = group_values mep_sizes 1.
Proof. reflexivity. Qed.

Lemma trials_up_to_grows (k : nat) :
  (k < 5)%nat ->
  trials_up_to mep_sizes k <> [] -> trials_up_to mep_sizes (S k) <> [].
Proof.
  intros Hk Hne E. rewrite <- (group_after k Hk) in E.
  apply app_eq_nil in E. tauto.
Qed.

(** One round of the loop over the intensities, entered with the sizes
    counted since trial 12. *)
Lemma intensity_step (k : nat) (curve : list (option pyfloat)) :
  (k < 5)%nat -> (S k < length curve)%nat ->
  intensity_body mep_sizes (S k)
    ((total (trials_up_to mep_sizes k),
      length (trials_up_to mep_sizes k)), curve) =
  match trials_up_to mep_sizes (S k) with
  | [] => raise ZeroDivisionError
  | _ :: _ =>
      ret ((total (trials_up_to mep_sizes (S k)),
            length (trials_up_to mep_sizes (S k))),
           set_nth curve (S k)
             (Some (arithmetic_mean (trials_up_to mep_sizes (S k)))))
  end.
Proof.
  intros Hk Hcurve. unfold intensity_body. cbn [fst snd].
  rewrite counting_loop by lia. rewrite bind_ret_l. cbn [fst snd].
  rewrite (group_after k Hk), divide_counted.
  destruct (trials_up_to mep_sizes (S k)) as [|v vs]; [reflexivity|].
  rewrite bind_ret_l. unfold setitem.
  apply Nat.ltb_lt in Hcurve. rewrite Hcurve.
  now rewrite !bind_ret_l.
Qed.

(** The loops on 42 per-trial results: the first mean is that of group 0;
    the mean stored for intensity [k] is that of all the sizes counted
    since trial 12, the sum and the counter being reset before the loop
    over the intensities and not inside it. *)
Lemma recruitment_means_42 :
  recruitment_means mep_sizes =
  match group_values mep_sizes 0, group_values mep_sizes 1 with
  | [], _ => raise ZeroDivisionError
  | _ :: _, [] => raise ZeroDivisionError
  | _ :: _, _ :: _ =>
      ret [Some (arithmetic_mean (group_values mep_sizes 0));
           Some (arithmetic_mean (trials_up_to mep_sizes 1));
           Some (arithmetic_mean (trials_up_to mep_sizes 2));
           Some (arithmetic_mean (trials_up_to mep_sizes 3));
           Some (arithmetic_mean (trials_up_to mep_sizes 4));
           Some (arithmetic_mean (trials_up_to mep_sizes 5))]
  end.
Proof.
  unfold recruitment_means.
  change (for_range (add_trial mep_sizes) 0 12 (Num 0, 0%nat))
    with (for_range (fun i => add_trial mep_sizes (0 + i)) 0 12
                    (total [], length (@nil pyfloat))).
  rewrite counting_loop by lia. rewrite bind_ret_l. cbn [fst snd app].
  change (present (trials mep_sizes (0 + 0) 12))
    with (group_values mep_sizes 0).
  rewrite divide_counted.
  destruct (group_values mep_sizes 0) as [|v0 g0] eqn:E0; [reflexivity|].
  rewrite <- E0.
  rewrite bind_ret_l. cbn [setitem repeat length Nat.ltb Nat.leb set_nth].
  rewrite bind_ret_l. cbn [for_range].
  change (group_values mep_sizes 1) with (trials_up_to mep_sizes 1).
  change (Num 0, 0%nat)
    with (total (trials_up_to mep_sizes 0),
          length (trials_up_to mep_sizes 0)).
  rewrite E0 at 1.
  rewrite (intensity_step 0) by (cbn [length]; lia).
  destruct (trials_up_to mep_sizes 1) as [|v1 g1] eqn:E1; [reflexivity|].
  rewrite <- E1.
  assert (H1 : trials_up_to mep_sizes 1 <> []) by congruence.
  clear E1.
  pose proof (trials_up_to_grows 1 ltac:(lia) H1) as H2.
  pose proof (trials_up_to_grows 2 ltac:(lia) H2) as H3.
  pose proof (trials_up_to_grows 3 ltac:(lia) H3) as H4.
  pose proof (trials_up_to_grows 4 ltac:(lia) H4) as H5.
  rewrite bind_ret_l, (intensity_step 1) by (cbn [length set_nth]; lia).
  destruct (trials_up_to mep_sizes 2) as [|v2 g2] eqn:E2; [congruence|].
  rewrite <- E2.
  rewrite bind_ret_l, (intensity_step 2) by (cbn [length set_nth]; lia).
  destruct (trials_up_to mep_sizes 3) as [|v3 g3] eqn:E3; [congruence|].
  rewrite <- E3.
  rewrite bind_ret_l, (intensity_step 3) by (cbn [length set_nth]; lia).
  destruct (trials_up_to mep_sizes 4) as [|v4 g4] eqn:E4; [congruence|].
  rewrite <- E4.
  rewrite bind_ret_l, (intensity_step 4) by (cbn [length set_nth]; lia).
  destruct (trials_up_to mep_sizes 5) as [|v5 g5] eqn:E5; [congruence|].
  rewrite <- E5.
  rewrite !bind_ret_l. cbn [snd set_nth]. now rewrite <- E0.
Qed.

End Counting.

Lemma find_mep_timing_quiet (x : Signal) :
  is_mep x = true -> fst (find_mep_timing x) = [].
Proof.
  intros Hm. unfold find_mep_timing. rewrite Hm. cbn [negb].
  unfold getitem. now destruct (nth_error _ 1).
Qed.

Lemma get_mep_size_quiet (kind : container) (x : Signal)
    (out : list string) (v : pyfloat) :
  get_mep_size kind x = (out, Return v) -> out = [].
Proof.
  unfold get_mep_size, find_mep_timing.
  destruct (is_mep x); cbn [negb]; [|discriminate].
  unfold getitem. destruct (nth_error _ 1) as [t|]; [|discriminate].
  cbn. destruct (slice x _ _); [destruct kind; [discriminate|]|];
    cbn; now intros [= <- _].
Qed.

Lemma measure_trials_measured :
  forall (columns : DataFrame) (acc : list (option pyfloat)) out mep_sizes,
    measure_trials columns acc = (out, Return mep_sizes) ->
    exists results,
      mep_sizes = acc ++ results /\ Forall2 measured columns results.
Proof.
  induction columns as [|col rest IH]; intros acc out mep_sizes H;
    cbn [measure_trials] in H.
  - injection H as _ <-. exists []. now rewrite app_nil_r.
  - destruct (is_mep col) eqn:Hm.
    + destruct (get_mep_size Series col) as [o [v | e]] eqn:Hv;
        [|discriminate H].
      rewrite bind_return in H.
      destruct (measure_trials rest (acc ++ [Some v])) as [o' r] eqn:Hrest.
      cbn [fst snd] in H. injection H as _ ->.
      destruct (IH _ _ _ Hrest) as (results & -> & HF).
      exists (Some v :: results). split; [now rewrite <- app_assoc|].
      constructor; [|exact HF]. unfold measured. rewrite Hm.
      exists v. split; [|reflexivity].
      now rewrite (get_mep_size_quiet _ _ _ _ Hv) in Hv.
    + destruct (IH _ _ _ H) as (results & -> & HF).
      exists (None :: results). split; [now rewrite <- app_assoc|].
      constructor; [|exact HF]. unfold measured. now rewrite Hm.
Qed.

Lemma Forall2_trials {A B} (R : A -> B -> Prop) (l1 : list A) (l2 : list B)
    (start n : nat) :
  Forall2 R l1 l2 -> Forall2 R (trials l1 start n) (trials l2 start n).
Proof.
  intros H. unfold trials.
  assert (Hs : Forall2 R (skipn start l1) (skipn start l2)).
  { revert start. induction H; intros [|start]; simpl; auto. }
  revert Hs. generalize (skipn start l1), (skipn start l2). clear.
  intros l1 l2 H. revert n. induction H; intros [|n]; simpl; auto.
Qed.

Lemma present_no_mep (columns : DataFrame)
    (results : list (option pyfloat)) :
  Forall2 measured columns results ->
  Forall no_mep columns -> present results = [].
Proof.
  induction 1 as [|col r columns results Hm _ IH]; intros Hno;
    [reflexivity|].
  inversion Hno as [|? ? Hcol Hrest]; subst.
  unfold measured in Hm. rewrite Hcol in Hm. subst r.
  cbn. now apply IH.
Qed.

(** A column of the data frame in which a MEP is detected always gets a
    size, be it nan, so that the first loop never fails. *)
Lemma get_mep_size_series_returns (x : Signal) :
  is_mep x = true -> exists v, get_mep_size Series x = ([], Return v).
Proof.
  intros Hm. destruct (two_peaks_shape x Hm) as (p & t & rest & E).
  assert (Ht : find_mep_timing x = ([], Return (PeakIndex t))).
  { unfold find_mep_timing. now rewrite Hm, E. }
  rewrite (get_mep_size_at Series x t Ht).
  destruct (slice x _ _) as [|u l]; eexists; reflexivity.
Qed.

Lemma measure_trials_returns :
  forall (columns : DataFrame) (acc : list (option pyfloat)),
    exists mep_sizes, measure_trials columns acc = ([], Return mep_sizes).
Proof.
  induction columns as [|col rest IH]; intros acc; cbn [measure_trials].
  - now exists acc.
  - destruct (is_mep col) eqn:Hm; [|apply IH].
    destruct (get_mep_size_series_returns col Hm) as (v & ->).
    change (@nil string, Return v) with (ret v).
    rewrite bind_ret_l. apply IH.
Qed.

(** What the whole function returns on 42 trials. *)
Lemma plot_recruitment_curve_42 (df : DataFrame) :
  length df = 42%nat ->
  exists mep_sizes,
    Forall2 measured df mep_sizes /\
    plot_recruitment_curve df = recruitment_means mep_sizes /\
    recruitment_means mep_sizes =
      match group_values mep_sizes 0, group_values mep_sizes 1 with
      | [], _ => raise ZeroDivisionError
      | _ :: _, [] => raise ZeroDivisionError
      | _ :: _, _ :: _ =>
          ret [Some (arithmetic_mean (group_values mep_sizes 0));
               Some (arithmetic_mean (trials_up_to mep_sizes 1));
               Some (arithmetic_mean (trials_up_to mep_sizes 2));
               Some (arithmetic_mean (trials_up_to mep_sizes 3));
               Some (arithmetic_mean (trials_up_to mep_sizes 4));
               Some (arithmetic_mean (trials_up_to mep_sizes 5))]
      end.
Proof.
  intros Hlen.
  destruct (measure_trials_returns df []) as (mep_sizes & Hm).
  exists mep_sizes.
  destruct (measure_trials_measured _ _ _ _ Hm) as (results & E & HF).
  cbn [app] in E. subst results.
  assert (H42 : length mep_sizes = 42%nat).
  { rewrite <- Hlen. symmetry. eapply Forall2_length; eassumption. }
  split; [exact HF|]. split; [|exact (recruitment_means_42 mep_sizes H42)].
  unfold plot_recruitment_curve, lineplot. rewrite Hm.
  change (@nil string, Return mep_sizes) with (ret mep_sizes).
  rewrite bind_ret_l, H42. cbn [Nat.eqb].
  rewrite <- (bind_ret_r (recruitment_means mep_sizes)) at 2.
  f_equal.
Qed.

(** C1: the means of group 0 and of group 1 are as the specification says,
    but from group 2 on the value stored is the mean of all the sizes since
    trial 12.  With six trials of size 1 in group 1 and six of size 3 in
    group 2, the value for group 2 is 2 and the mean of group 2 is 3. *)
Theorem recruitment_curve_group_2_mixed :
  exists mep_sizes curve v,
    measure_trials stronger_group_2 [] = ([], Return mep_sizes) /\
    plot_recruitment_curve stronger_group_2 = ([], Return curve) /\
    nth_error curve 2 = Some (Some v) /\ feq v (Num 2) /\
    feq (arithmetic_mean (group_values mep_sizes 2)) (Num 3).
Proof.
  exists (repeat (Some (Num 1)) 18 ++ repeat (Some (Num 3)) 6
          ++ repeat (Some (Num 1)) 18)%list.
  exists (map (fun v => Some (Num v))
              [12 # 12; 6 # 6; 24 # 12; 30 # 18; 36 # 24; 42 # 30]).
  exists (Num (24 # 12)).
  repeat split; vm_compute; reflexivity.
Qed.

(** C8 as the specification has it fails: with twelve trials of size 1 and
    then six trials without MEP the call ends in the division error and
    returns no curve at all. *)
Lemma recruitment_curve_silent_group_raises :
  measure_trials silent_group_1 [] =
    ([], Return (repeat (Some (Num 1)) 12 ++ repeat None 6
                  ++ repeat (Some (Num 1)) 24)%list)
  /\ plot_recruitment_curve silent_group_1 = ([], Raise ZeroDivisionError)
  /\ ~ (exists out curve,
          plot_recruitment_curve silent_group_1 = (out, Return curve)).
Proof.
  split; [vm_compute; reflexivity|].
  assert (E : plot_recruitment_curve silent_group_1
              = ([], Raise ZeroDivisionError)) by (vm_compute; reflexivity).
  split; [exact E|]. intros (out & curve & H). rewrite E in H. discriminate H.
Qed.

(** C8, amended: on 42 trials, when no MEP is detected in any of the
    trials 0 to 11, or in any of the trials 12 to 17, the call raises
    ZeroDivisionError and no curve is returned. *)
Theorem recruitment_curve_empty_group (df : DataFrame) :
  length df = 42%nat ->
  Forall no_mep (trials df 0 12) \/ Forall no_mep (trials df 12 6) ->
  plot_recruitment_curve df = ([], Raise ZeroDivisionError).
Proof.
  intros Hlen Hempty.
  destruct (plot_recruitment_curve_42 df Hlen) as (mep_sizes & HF & -> & ->).
  assert (H0 : Forall no_mep (trials df 0 12) -> group_values mep_sizes 0 = []).
  { apply present_no_mep. now apply Forall2_trials. }
  assert (H1 : Forall no_mep (trials df 12 6) -> group_values mep_sizes 1 = []).
  { apply present_no_mep. now apply (Forall2_trials _ _ _ 12 6). }
  destruct Hempty as [H | H].
  - now rewrite (H0 H).
  - rewrite (H1 H). now destruct (group_values mep_sizes 0).
Qed.

Lemma recruitment_curve_empty_group_witness :
  plot_recruitment_curve silent_group_1 = ([], Raise ZeroDivisionError).
Proof.
  refine (recruitment_curve_empty_group silent_group_1 _ _).
  - reflexivity.
  - right. vm_compute. repeat constructor.
Defined.

(** * Further properties of the functions *)

(** ** Where the pulse and the MEP can be *)

Lemma separated_from_weaken (lo lo' : nat) (l : list nat) :
  (lo' <= lo)%nat -> separated_from lo l -> separated_from lo' l.
Proof.
  intros Hle H. destruct H; constructor; [lia | assumption].
Qed.

Lemma separated_from_filter (f : nat -> bool) (lo : nat) (l : list nat) :
  separated_from lo l -> separated_from lo (filter f l).
Proof.
  intros H. induction H as [lo | lo p l Hp H IH]; simpl.
  - constructor.
  - destruct (f p).
    + constructor; assumption.
    + apply separated_from_weaken with (lo := S (S p)); [lia | assumption].
Qed.

Lemma separated_from_gap (lo p t : nat) (l : list nat) :
  separated_from lo (p :: t :: l) -> (lo <= p /\ p + 2 <= t)%nat.
Proof.
  intros H. inversion H as [| ? ? ? Hp H']; subst.
  inversion H' as [| ? ? ? Ht _]; subst. lia.
Qed.

Lemma maxima_loop_separated (x : Signal) (i_max : nat) :
  forall fuel i, separated_from i (maxima_loop fuel x i i_max).
Proof.
  induction fuel as [|fuel IH]; intros i; cbn [maxima_loop]; [constructor|].
  destruct (i <? i_max)%nat eqn:E; [|constructor].
  apply Nat.ltb_lt in E.
  pose proof (plateau_end_bounds x i i_max E) as Hb.
  destruct (Qltb (sample x (i - 1)) (sample x i)).
  - destruct (Qltb (sample x (plateau_end x i i_max)) (sample x i)).
    + pose proof (midpoint_bounds i (plateau_end x i i_max - 1)) as Hm.
      constructor; [lia|].
      apply separated_from_weaken with (lo := S (plateau_end x i i_max));
        [lia | apply IH].
    + apply separated_from_weaken with (lo := S i); [lia | apply IH].
  - apply separated_from_weaken with (lo := S i); [lia | apply IH].
Qed.

Lemma find_peaks_separated (x : Signal) (prominence : Q) :
  separated_from 1 (find_peaks x prominence).
Proof.
  unfold find_peaks, local_maxima.
  apply separated_from_filter, maxima_loop_separated.
Qed.

Lemma negate_length (x : Signal) : length (negate x) = length x.
Proof. apply length_map. Qed.

Lemma Qopp_opp (v : Q) : - - v = v.
Proof. destruct v as [n d]. unfold Qopp. cbn. now rewrite Z.opp_involutive. Qed.

Lemma negate_involutive (x : Signal) : negate (negate x) = x.
Proof.
  unfold negate. rewrite map_map. rewrite <- (map_id x) at 2.
  apply map_ext. exact Qopp_opp.
Qed.

Lemma find_peaks_short (x : Signal) (prominence : Q) :
  (length x < 3)%nat -> find_peaks x prominence = [].
Proof.
  intros Hshort. destruct (find_peaks x prominence) as [|p rest] eqn:E;
    [reflexivity|].
  assert (Hin : In p (find_peaks x prominence)) by (rewrite E; now left).
  apply find_peaks_in_range in Hin. lia.
Qed.

(** X1: [find_tms_pulse] prints nothing; the index it returns is the first
    qualifying peak of the signal or, when the signal has none, of the
    negated signal, and it is never the first or the last sample.  A signal
    of fewer than three samples always ends in IndexError. *)
Theorem find_tms_pulse_inside :
  (forall x out p,
      find_tms_pulse x = (out, Return p) ->
      out = [] /\ (1 <= p < length x - 1)%nat /\
      ((exists rest, find_peaks x min_prominence = p :: rest) \/
       (find_peaks x min_prominence = [] /\
        exists rest, find_peaks (negate x) min_prominence = p :: rest))) /\
  (forall x, (length x < 3)%nat ->
             find_tms_pulse x = ([], Raise IndexError)).
Proof.
  split.
  - intros x out p H. unfold find_tms_pulse in H.
    destruct (find_peaks x min_prominence) as [|p1 rest1] eqn:E1;
      cbn [length Nat.eqb] in H.
    + destruct (find_peaks (negate x) min_prominence) as [|p2 rest2] eqn:E2;
        [discriminate H|].
      cbn in H. injection H as <- <-.
      assert (Hin : In p2 (find_peaks (negate x) min_prominence))
        by (rewrite E2; now left).
      apply find_peaks_in_range in Hin. rewrite negate_length in Hin.
      split; [reflexivity|]. split; [exact Hin|].
      right. split; [reflexivity|]. now exists rest2.
    + cbn in H. injection H as <- <-.
      assert (Hin : In p1 (find_peaks x min_prominence))
        by (rewrite E1; now left).
      apply find_peaks_in_range in Hin.
      split; [reflexivity|]. split; [exact Hin|].
      left. now exists rest1.
  - intros x Hshort. unfold find_tms_pulse.
    rewrite (find_peaks_short x) by assumption. cbn [length Nat.eqb].
    rewrite find_peaks_short by (now rewrite negate_length).
    reflexivity.
Qed.

Lemma find_tms_pulse_inside_witness :
  find_tms_pulse [0; 1] = ([], Raise IndexError) /\
  (1 <= 2 < length ([0; 0; -1; 0]%Q) - 1)%nat.
Proof.
  split.
  - refine (proj2 find_tms_pulse_inside [0; 1] _). vm_compute. lia.
  - refine (proj1 (proj2 (proj1 find_tms_pulse_inside [0; 0; -1; 0] [] 2%nat _))).
    vm_compute. reflexivity.
Defined.

(** X3: for a signal without a qualifying peak of its own, the signal and
    its negation give the same result: a recording and its mirror image
    agree when only one polarity shows a pulse, and fail together when
    neither does. *)
Theorem find_tms_pulse_negate (x : Signal) :
  find_peaks x min_prominence = [] ->
  find_tms_pulse (negate x) = find_tms_pulse x.
Proof.
  intros E. rewrite (find_tms_pulse_fallback x E).
  unfold find_tms_pulse.
  destruct (find_peaks (negate x) min_prominence) as [|p rest] eqn:En.
  - cbn [length Nat.eqb]. now rewrite negate_involutive, E.
  - reflexivity.
Qed.

Lemma find_tms_pulse_negate_witness :
  find_tms_pulse (negate [0; 0; -1; 0]) = find_tms_pulse [0; 0; -1; 0].
Proof.
  refine (find_tms_pulse_negate [0; 0; -1; 0] _). reflexivity.
Defined.

(** X5: [find_mep_timing] never raises.  Without MEP it prints its message
    once and returns the empty list; with a MEP it prints nothing, and the
    index it returns is at least two samples after the one that
    [find_tms_pulse] returns and is not the last sample. *)
Theorem find_mep_timing_after_pulse (x : Signal) :
  (is_mep x = false /\
   find_mep_timing x = (["No MEP detected"%string], Return EmptyList)) \/
  (is_mep x = true /\
   exists p t,
     find_tms_pulse x = ([], Return p) /\
     find_mep_timing x = ([], Return (PeakIndex t)) /\
     (1 <= p /\ p + 2 <= t /\ t < length x - 1)%nat).
Proof.
  destruct (is_mep x) eqn:Hm.
  - right. split; [reflexivity|].
    destruct (two_peaks_shape x Hm) as (p & t & rest & E).
    exists p, t. split; [now apply find_tms_pulse_direct with (rest := t :: rest)|].
    split; [unfold find_mep_timing; now rewrite Hm, E|].
    pose proof (find_peaks_separated x min_prominence) as Hs.
    rewrite E in Hs. apply separated_from_gap in Hs.
    assert (Hin : In t (find_peaks x min_prominence))
      by (rewrite E; right; now left).
    apply find_peaks_in_range in Hin. lia.
  - left. split; [reflexivity|]. unfold find_mep_timing. now rewrite Hm.
Qed.

(** X6: a signal of fewer than five samples never has a MEP. *)
Theorem is_mep_needs_five_samples (x : Signal) :
  (length x < 5)%nat -> is_mep x = false.
Proof.
  intros Hshort. destruct (is_mep x) eqn:Hm; [|reflexivity].
  destruct (two_peaks_shape x Hm) as (p & t & rest & E).
  pose proof (find_peaks_separated x min_prominence) as Hs.
  rewrite E in Hs. apply separated_from_gap in Hs.
  assert (Hin : In t (find_peaks x min_prominence))
    by (rewrite E; right; now left).
  apply find_peaks_in_range in Hin. lia.
Qed.

Lemma is_mep_needs_five_samples_witness : is_mep [0; 1; 0; 1] = false.
Proof.
  refine (is_mep_needs_five_samples [0; 1; 0; 1] _). vm_compute. lia.
Defined.

(** ** What [get_mep_size] returns and when it fails *)

Lemma find_mep_timing_cases (x : Signal) :
  (is_mep x = false /\
   find_mep_timing x = (["No MEP detected"%string], Return EmptyList)) \/
  (is_mep x = true /\
   exists t, find_mep_timing x = ([], Return (PeakIndex t))).
Proof.
  destruct (is_mep x) eqn:Hm.
  - right. split; [reflexivity|].
    destruct (two_peaks_shape x Hm) as (p & t & rest & E).
    exists t. unfold find_mep_timing. now rewrite Hm, E.
  - left. split; [reflexivity|]. unfold find_mep_timing. now rewrite Hm.
Qed.

Lemma get_mep_size_no_mep (kind : container) (x : Signal) :
  is_mep x = false ->
  get_mep_size kind x = (["No MEP detected"%string], Raise TypeError).
Proof.
  intros Hm. unfold get_mep_size, find_mep_timing. now rewrite Hm.
Qed.

(** X7: [get_mep_size] raises TypeError exactly on the signals without
    MEP, whatever the container: the message of [find_mep_timing] is
    printed and the subtraction [[] - 50] fails.  On a signal with a MEP
    nothing is printed. *)
Theorem get_mep_size_without_mep (kind : container) (x : Signal) :
  (is_mep x = false ->
   get_mep_size kind x = (["No MEP detected"%string], Raise TypeError)) /\
  (forall out, get_mep_size kind x = (out, Raise TypeError) ->
               is_mep x = false) /\
  (is_mep x = true -> fst (get_mep_size kind x) = []).
Proof.
  split; [apply get_mep_size_no_mep|].
  destruct (find_mep_timing_cases x) as [[Hno _] | [Hm (t & Ht)]].
  - split; [intros _ _; exact Hno | congruence].
  - rewrite (get_mep_size_at kind x t Ht).
    destruct (slice x (Z.of_nat t - 50) (Z.of_nat t + 50)) as [|u l].
    + destruct kind; split; (intros out H; discriminate H) || reflexivity.
    + split; [intros out H; discriminate H | reflexivity].
Qed.

Lemma get_mep_size_without_mep_witness :
  get_mep_size Array [0; 1; 0] = (["No MEP detected"%string], Raise TypeError)
  /\ fst (get_mep_size Array trial_of_size_1) = [].
Proof.
  split.
  - refine (proj1 (get_mep_size_without_mep Array [0; 1; 0]) _). reflexivity.
  - refine (proj2 (proj2 (get_mep_size_without_mep Array trial_of_size_1)) _).
    reflexivity.
Defined.

Lemma samples_between_nonempty (x : Signal) (lo hi : Z) :
  (0 <= lo < hi)%Z -> (lo < Z.of_nat (length x))%Z ->
  samples_between x lo hi <> [].
Proof.
  intros Hlo Hn.
  destruct (nth_error x (Z.to_nat lo)) as [v|] eqn:E.
  - assert (Hin : In v (samples_between x lo hi)).
    { unfold samples_between. apply samples_between_from_In.
      exists (Z.to_nat lo). split; [exact E | lia]. }
    intros Hnil. now rewrite Hnil in Hin.
  - apply nth_error_None in E. lia.
Qed.

(** The samples that [get_mep_size] reads around the index [t]. *)
Lemma slice_around (x : Signal) (t : nat) :
  (t < length x)%nat ->
  slice x (Z.of_nat t - 50) (Z.of_nat t + 50) =
  samples_between x
    (if (t <? 50)%nat
     then Z.max (Z.of_nat t - 50 + Z.of_nat (length x)) 0
     else Z.of_nat t - 50)%Z
    (Z.min (Z.of_nat t + 50) (Z.of_nat (length x))).
Proof.
  intros Ht. rewrite slice_samples_between. unfold slice_bound.
  replace (Z.of_nat t + 50 <? 0)%Z with false
    by (symmetry; apply Z.ltb_ge; lia).
  f_equal. destruct (Nat.ltb_spec t 50).
  - replace (Z.of_nat t - 50 <? 0)%Z with true
      by (symmetry; apply Z.ltb_lt; lia).
    reflexivity.
  - replace (Z.of_nat t - 50 <? 0)%Z with false
      by (symmetry; apply Z.ltb_ge; lia).
    lia.
Qed.

Lemma slice_around_empty_iff (x : Signal) (t : nat) :
  (t < length x)%nat ->
  slice x (Z.of_nat t - 50) (Z.of_nat t + 50) = [] <->
  (t < 50 /\ 100 <= length x)%nat.
Proof.
  intros Ht. rewrite slice_around by assumption. split.
  - intros Hnil. destruct (Nat.ltb_spec t 50) as [Hearly | Hlate].
    + split; [exact Hearly|].
      destruct (Nat.lt_ge_cases (length x) 100) as [Hshort | Hlong];
        [|exact Hlong].
      exfalso. revert Hnil. apply samples_between_nonempty; lia.
    + exfalso. revert Hnil. apply samples_between_nonempty; lia.
  - intros [Hearly Hlong].
    apply Nat.ltb_lt in Hearly as Hb. rewrite Hb.
    apply samples_between_empty. lia.
Qed.



(** ** The recruitment curve: when it is returned and what it holds *)

Lemma counting_loop_outcome (mep_sizes : list (option pyfloat))
    (location : nat) :
  forall n j acc,
    (exists acc',
        for_range (fun i => add_trial mep_sizes (location + i)) j n acc
        = ([], Return acc') /\
        (n = 0 \/ location + j + n <= length mep_sizes)%nat) \/
    for_range (fun i => add_trial mep_sizes (location + i)) j n acc
    = ([], Raise IndexError).
Proof.
  induction n as [|n IH]; intros j acc; cbn [for_range].
  - left. exists acc. split; [reflexivity | now left].
  - destruct (nth_error mep_sizes (location + j)) as [r|] eqn:E.
    + assert (Hj : (location + j < length mep_sizes)%nat).
      { apply nth_error_Some. congruence. }
      assert (Ha : exists acc1,
                 add_trial mep_sizes (location + j) acc = ret acc1).
      { unfold add_trial. rewrite (getitem_nth_error _ _ _ E), bind_ret_l.
        destruct r; eexists; reflexivity. }
      destruct Ha as (acc1 & ->). rewrite bind_ret_l.
      destruct (IH (S j) acc1) as [(acc' & Hr & Hn) | Hr].
      * left. exists acc'. split; [exact Hr | right; lia].
      * now right.
    + assert (Ha : add_trial mep_sizes (location + j) acc = raise IndexError).
      { unfold add_trial, getitem. now rewrite E. }
      rewrite Ha. now right.
Qed.

Lemma divide_outcome (sum_meps : pyfloat) (counter : nat) :
  (exists mean, divide sum_meps counter = ([], Return mean)) \/
  divide sum_meps counter = ([], Raise ZeroDivisionError).
Proof.
  unfold divide. destruct (counter =? 0)%nat; [now right | left].
  eexists. reflexivity.
Qed.

Lemma setitem_outcome {A} (l : list A) (k : nat) (v : A) :
  (exists l', setitem l k v = ([], Return l')) \/
  setitem l k v = ([], Raise IndexError).
Proof.
  unfold setitem. destruct (k <? length l)%nat; [left | now right].
  eexists. reflexivity.
Qed.

Lemma intensity_body_outcome (mep_sizes : list (option pyfloat)) (k : nat)
    (st : (pyfloat * nat) * list (option pyfloat)) :
  (exists st',
      intensity_body mep_sizes k st = ([], Return st') /\
      (12 + 6 * k <= length mep_sizes)%nat) \/
  index_or_zero_division (intensity_body mep_sizes k st).
Proof.
  unfold intensity_body, index_or_zero_division.
  destruct (counting_loop_outcome mep_sizes (6 + k * 6) 6 0 (fst st))
    as [(acc & -> & Hlen) | ->]; [|right; now left].
  change (@nil string, Return acc) with (ret acc). rewrite bind_ret_l.
  destruct (divide_outcome (fst acc) (snd acc)) as [(mean & ->) | ->];
    [|right; now right].
  change (@nil string, Return mean) with (ret mean). rewrite bind_ret_l.
  destruct (setitem_outcome (snd st) k (Some mean)) as [(curve & ->) | ->];
    [|right; now left].
  change (@nil string, Return curve) with (ret curve). rewrite bind_ret_l.
  left. eexists. split; [reflexivity | lia].
Qed.

Lemma intensity_loop_outcome (mep_sizes : list (option pyfloat)) :
  forall n k st,
    (exists st',
        for_range (intensity_body mep_sizes) k n st = ([], Return st') /\
        (n = 0 \/ 6 + 6 * (k + n) <= length mep_sizes)%nat) \/
    index_or_zero_division (for_range (intensity_body mep_sizes) k n st).
Proof.
  induction n as [|n IH]; intros k st; cbn [for_range].
  - left. exists st. split; [reflexivity | now left].
  - destruct (intensity_body_outcome mep_sizes k st)
      as [(st1 & -> & Hlen) | [-> | ->]];
      [|right; now left | right; now right].
    change (@nil string, Return st1) with (ret st1). rewrite bind_ret_l.
    destruct (IH (S k) st1) as [(st' & Hr & Hn) | Hr]; [|now right].
    left. exists st'. split; [exact Hr | right; lia].
Qed.

Lemma recruitment_means_outcome (mep_sizes : list (option pyfloat)) :
  (exists curve,
      recruitment_means mep_sizes = ([], Return curve) /\
      (42 <= length mep_sizes)%nat) \/
  index_or_zero_division (recruitment_means mep_sizes).
Proof.
  unfold recruitment_means, index_or_zero_division.
  change (for_range (add_trial mep_sizes) 0 12 (Num 0, 0%nat))
    with (for_range (fun i => add_trial mep_sizes (0 + i)) 0 12
                    (Num 0, 0%nat)).
  destruct (counting_loop_outcome mep_sizes 0 12 0 (Num 0, 0%nat))
    as [(acc & -> & _) | ->]; [|right; now left].
  change (@nil string, Return acc) with (ret acc). rewrite bind_ret_l.
  destruct (divide_outcome (fst acc) (snd acc)) as [(mean & ->) | ->];
    [|right; now right].
  change (@nil string, Return mean) with (ret mean). rewrite bind_ret_l.
  cbn [setitem repeat length Nat.ltb Nat.leb set_nth]. rewrite bind_ret_l.
  match goal with
  | |- context [for_range (intensity_body mep_sizes) 1 5 ?st] =>
      destruct (intensity_loop_outcome mep_sizes 5 1 st)
        as [(st' & -> & Hlen) | [-> | ->]]
  end; [|right; now left | right; now right].
  change (@nil string, Return st') with (ret st'). rewrite bind_ret_l.
  left. eexists. split; [reflexivity | lia].
Qed.

Lemma recruitment_means_too_few (mep_sizes : list (option pyfloat)) :
  (length mep_sizes < 12)%nat ->
  recruitment_means mep_sizes = ([], Raise IndexError).
Proof.
  intros Hshort. unfold recruitment_means.
  change (for_range (add_trial mep_sizes) 0 12 (Num 0, 0%nat))
    with (for_range (fun i => add_trial mep_sizes (0 + i)) 0 12
                    (Num 0, 0%nat)).
  rewrite counting_loop_that_fails by lia. reflexivity.
Qed.

Lemma plot_recruitment_curve_measured (df : DataFrame) :
  exists mep_sizes,
    Forall2 measured df mep_sizes /\
    plot_recruitment_curve df =
      (recruitment_curve <- recruitment_means mep_sizes ;;
       lineplot mep_sizes ;;; ret recruitment_curve).
Proof.
  destruct (measure_trials_returns df []) as (mep_sizes & Hm).
  exists mep_sizes.
  destruct (measure_trials_measured _ _ _ _ Hm) as (results & E & HF).
  cbn [app] in E. subst results. split; [exact HF|].
  unfold plot_recruitment_curve. rewrite Hm.
  change (@nil string, Return mep_sizes) with (ret mep_sizes).
  now rewrite bind_ret_l.
Qed.

(** X10: [plot_recruitment_curve] returns a curve only for a data frame of
    42 columns or more and prints nothing.  With fewer than 42 columns it
    raises IndexError or ZeroDivisionError, and with fewer than 12 it is
    IndexError. *)
Theorem plot_recruitment_curve_too_few (df : DataFrame) :
  (forall out curve,
      plot_recruitment_curve df = (out, Return curve) ->
      out = [] /\ (42 <= length df)%nat) /\
  ((length df < 42)%nat ->
   index_or_zero_division (plot_recruitment_curve df)) /\
  ((length df < 12)%nat ->
   plot_recruitment_curve df = ([], Raise IndexError)).
Proof.
  destruct (plot_recruitment_curve_measured df) as (mep_sizes & HF & ->).
  assert (Hlen : length df = length mep_sizes)
    by (eapply Forall2_length; eassumption).
  rewrite Hlen.
  destruct (recruitment_means_outcome mep_sizes)
    as [(curve & E & H42) | Hfail].
  - rewrite E.
    change (@nil string, Return curve) with (ret curve). rewrite bind_ret_l.
    split; [|split].
    + intros out curve' H. split; [|exact H42].
      unfold lineplot in H.
      destruct (length mep_sizes =? 42)%nat; [|discriminate H].
      now injection H as <- _.
    + lia.
    + lia.
  - assert (Hsame : (recruitment_curve <- recruitment_means mep_sizes ;;
                     lineplot mep_sizes ;;; ret recruitment_curve)
                    = recruitment_means mep_sizes).
    { destruct Hfail as [E | E]; rewrite E; reflexivity. }
    rewrite Hsame. split; [|split].
    + intros out curve H. destruct Hfail as [E | E]; rewrite E in H;
        discriminate H.
    + intros _. exact Hfail.
    + apply recruitment_means_too_few.
Qed.

Lemma plot_recruitment_curve_too_few_witness :
  plot_recruitment_curve (repeat trial_of_size_1 11) = ([], Raise IndexError)
  /\ index_or_zero_division
       (plot_recruitment_curve (repeat trial_of_size_1 41)).
Proof.
  split.
  - refine (proj2 (proj2 (plot_recruitment_curve_too_few
                            (repeat trial_of_size_1 11))) _).
    vm_compute. lia.
  - refine (proj1 (proj2 (plot_recruitment_curve_too_few
                            (repeat trial_of_size_1 41))) _).
    vm_compute. lia.
Defined.

Lemma Forall_trials {A} (P : A -> Prop) (l : list A) (start n : nat) :
  Forall P l -> Forall P (trials l start n).
Proof.
  intros H. apply Forall_forall. intros a Hin.
  rewrite Forall_forall in H. apply H. unfold trials in Hin.
  rewrite <- (firstn_skipn start l). apply in_or_app. right.
  rewrite <- (firstn_skipn n (skipn start l)). apply in_or_app. now left.
Qed.

Lemma present_nonempty_iff (columns : DataFrame)
    (results : list (option pyfloat)) :
  Forall2 measured columns results ->
  present results <> [] <-> Exists with_mep columns.
Proof.
  induction 1 as [|col r columns results Hm _ IH].
  - cbn. rewrite Exists_nil. tauto.
  - rewrite Exists_cons. unfold measured in Hm. unfold with_mep at 1.
    destruct (is_mep col).
    + destruct Hm as (v & _ & ->). cbn. split; [now left | discriminate].
    + subst r. cbn [present flat_map app]. fold (present results).
      rewrite IH. split; [now right | intros [H | H]; [discriminate H | exact H]].
Qed.

(** X11: on 42 columns [plot_recruitment_curve] returns a curve exactly
    when a MEP is detected in at least one of the columns 0 to 11 and in at
    least one of the columns 12 to 17; the later groups may be without
    any. *)
Theorem plot_recruitment_curve_returns_iff (df : DataFrame) :
  length df = 42%nat ->
  (exists curve, plot_recruitment_curve df = ([], Return curve)) <->
  Exists with_mep (trials df 0 12) /\ Exists with_mep (trials df 12 6).
Proof.
  intros Hlen.
  destruct (plot_recruitment_curve_42 df Hlen) as (mep_sizes & HF & -> & ->).
  rewrite <- (present_nonempty_iff _ _ (Forall2_trials _ _ _ 0 12 HF)).
  rewrite <- (present_nonempty_iff _ _ (Forall2_trials _ _ _ 12 6 HF)).
  change (present (trials mep_sizes 0 12)) with (group_values mep_sizes 0).
  change (present (trials mep_sizes 12 6)) with (group_values mep_sizes 1).
  destruct (group_values mep_sizes 0) as [|v0 g0].
  - split; [intros (curve & H); discriminate H | intros [H _]; congruence].
  - destruct (group_values mep_sizes 1) as [|v1 g1].
    + split; [intros (curve & H); discriminate H | intros [_ H]; congruence].
    + split; [intros _; split; discriminate | intros _].
      eexists. reflexivity.
Qed.

Lemma plot_recruitment_curve_returns_iff_witness :
  exists curve, plot_recruitment_curve stronger_group_2 = ([], Return curve).
Proof.
  refine (proj2 (plot_recruitment_curve_returns_iff stronger_group_2 _) _).
  - reflexivity.
  - split.
    + apply Exists_cons_hd. vm_compute. reflexivity.
    + apply Exists_cons_hd. vm_compute. reflexivity.
Defined.

(** X12: the curve returned for 42 columns has six values and none is
    missing.  The first is the mean of the sizes measured in the columns 0
    to 11, the second that of the columns 12 to 17, and the value for each
    later intensity [k] is the mean of all the sizes measured in the
    columns from 12 to [11 + 6 k]. *)
Theorem plot_recruitment_curve_values (df : DataFrame) (out : list string)
    (curve : list (option pyfloat)) :
  length df = 42%nat ->
  plot_recruitment_curve df = (out, Return curve) ->
  exists mep_sizes,
    Forall2 measured df mep_sizes /\
    curve =
      [Some (arithmetic_mean (present (trials mep_sizes 0 12)));
       Some (arithmetic_mean (present (trials mep_sizes 12 6)));
       Some (arithmetic_mean (present (trials mep_sizes 12 12)));
       Some (arithmetic_mean (present (trials mep_sizes 12 18)));
       Some (arithmetic_mean (present (trials mep_sizes 12 24)));
       Some (arithmetic_mean (present (trials mep_sizes 12 30)))].
Proof.
  intros Hlen H.
  destruct (plot_recruitment_curve_42 df Hlen) as (mep_sizes & HF & E & Er).
  exists mep_sizes. split; [exact HF|].
  rewrite E, Er in H.
  destruct (group_values mep_sizes 0) as [|v0 g0] eqn:E0; [discriminate H|].
  destruct (group_values mep_sizes 1) as [|v1 g1] eqn:E1; [discriminate H|].
  injection H as _ <-. rewrite <- E0. reflexivity.
Qed.

Lemma plot_recruitment_curve_values_witness :
  exists mep_sizes,
    Forall2 measured stronger_group_2 mep_sizes /\
    map (fun v => Some (Num v))
        [12 # 12; 6 # 6; 24 # 12; 30 # 18; 36 # 24; 42 # 30] =
      [Some (arithmetic_mean (present (trials mep_sizes 0 12)));
       Some (arithmetic_mean (present (trials mep_sizes 12 6)));
       Some (arithmetic_mean (present (trials mep_sizes 12 12)));
       Some (arithmetic_mean (present (trials mep_sizes 12 18)));
       Some (arithmetic_mean (present (trials mep_sizes 12 24)));
       Some (arithmetic_mean (present (trials mep_sizes 12 30)))].
Proof.
  refine (plot_recruitment_curve_values stronger_group_2 [] _ _ _).
  - reflexivity.
  - vm_compute. reflexivity.
Defined.

Lemma measured_number (col : Signal) (r : option pyfloat) (v : pyfloat) :
  measured col r -> readable col -> r = Some v -> is_number v.
Proof.
  unfold measured, readable. intros Hm Hread ->.
  destruct (find_mep_timing_cases col) as [[Hno _] | [Hyes (t & Ht)]].
  { rewrite Hno in Hm. discriminate Hm. }
  rewrite Hyes in Hm. destruct Hm as (v' & Hv & [= <-]).
  pose proof (find_mep_timing_in_range col t Ht) as Hr.
  rewrite (get_mep_size_at Series col t Ht) in Hv.
  destruct (slice col (Z.of_nat t - 50) (Z.of_nat t + 50)) as [|u l] eqn:Es.
  - apply slice_around_empty_iff in Es; [|lia].
    specialize (Hread t Ht). lia.
  - destruct (peak_to_peak_spec Series (u :: l)) as (hi & lo & E & _);
      [discriminate|].
    rewrite E in Hv. injection Hv as <-. exact I.
Qed.

Lemma present_numbers (columns : DataFrame)
    (results : list (option pyfloat)) :
  Forall2 measured columns results -> Forall readable columns ->
  Forall is_number (present results).
Proof.
  induction 1 as [|col r columns results Hm _ IH]; intros Hread.
  - constructor.
  - inversion Hread as [|? ? Hcol Hrest]; subst.
    destruct r as [v|]; cbn; [|now apply IH].
    constructor; [|now apply IH].
    exact (measured_number col (Some v) v Hm Hcol eq_refl).
Qed.

Lemma fold_fadd_number (l : list pyfloat) :
  Forall is_number l ->
  forall acc, is_number acc -> is_number (fold_left fadd l acc).
Proof.
  induction 1 as [|v l Hv _ IH]; intros acc Hacc; cbn [fold_left];
    [exact Hacc|].
  apply IH. destruct acc, v; cbn in *; tauto.
Qed.

Lemma arithmetic_mean_number (l : list pyfloat) :
  Forall is_number l -> is_number (arithmetic_mean l).
Proof.
  intros H. unfold arithmetic_mean, total.
  pose proof (fold_fadd_number l H (Num 0) I) as Hn.
  destruct (fold_left fadd l (Num 0)); [exact I | exact Hn].
Qed.



(** ** What the drawing functions compute *)

Lemma np_min_nonempty (kind : container) (x : list Q) :
  x <> [] ->
  exists lo, np_min kind x = ret (Num lo) /\ In lo x /\
             forall v, In v x -> lo <= v.
Proof.
  destruct x as [|u l]; [congruence|]. intros _.
  exists (fold_left Qmin l u). split; [reflexivity|].
  apply fold_min_spec.
Qed.

Lemma np_max_nonempty (kind : container) (x : list Q) :
  x <> [] ->
  exists hi, np_max kind x = ret (Num hi) /\ In hi x /\
             forall v, In v x -> v <= hi.
Proof.
  destruct x as [|u l]; [congruence|]. intros _.
  exists (fold_left Qmax l u). split; [reflexivity|].
  apply fold_max_spec.
Qed.

Lemma select_mask (x : Signal) (lo hi : Z) :
  forall i,
    select (map (fun w => (lo <=? Z.of_nat w)%Z && (Z.of_nat w <=? hi)%Z)
                (seq i (length x))) x =
    samples_between_from x (Z.of_nat i) lo (hi + 1).
Proof.
  induction x as [|v x IH]; intros i; [reflexivity|].
  cbn [length seq map select samples_between_from].
  replace (Z.of_nat i <? hi + 1)%Z with (Z.of_nat i <=? hi)%Z
    by (destruct (Z.leb_spec (Z.of_nat i) hi), (Z.ltb_spec (Z.of_nat i) (hi + 1));
        try reflexivity; lia).
  rewrite IH. replace (Z.of_nat (S i)) with (Z.of_nat i + 1)%Z by lia.
  reflexivity.
Qed.

Lemma firstn_snoc {A} (d : A) :
  forall (l : list A) (k : nat),
    (k < length l)%nat -> firstn (S k) l = firstn k l ++ [nth k l d].
Proof.
  induction l as [|a l IH]; intros k Hk; [cbn in Hk; lia|].
  destruct k as [|k]; [reflexivity|].
  cbn [length] in Hk. cbn [firstn nth app].
  f_equal. apply IH. lia.
Qed.

Lemma nth_skipn_add {A} (d : A) :
  forall (l : list A) (s k : nat), nth k (skipn s l) d = nth (s + k) l d.
Proof.
  induction l as [|a l IH]; intros s k.
  - rewrite skipn_nil. destruct k, s; reflexivity.
  - destruct s as [|s]; [reflexivity|]. cbn [skipn Nat.add nth]. apply IH.
Qed.

Lemma samples_between_one_more (x : Signal) (lo hi : nat) :
  (lo <= hi < length x)%nat ->
  samples_between x (Z.of_nat lo) (Z.of_nat hi + 1) =
  samples_between x (Z.of_nat lo) (Z.of_nat hi) ++ [sample x hi].
Proof.
  intros H. unfold samples_between. rewrite !samples_between_from_firstn.
  replace (Z.to_nat (Z.of_nat lo - 0)) with lo by lia.
  replace (Z.to_nat (Z.of_nat hi + 1 - Z.max (Z.of_nat lo) 0))
    with (S (hi - lo)) by lia.
  replace (Z.to_nat (Z.of_nat hi - Z.max (Z.of_nat lo) 0))
    with (hi - lo)%nat by lia.
  rewrite (firstn_snoc 0) by (rewrite length_skipn; lia).
  rewrite nth_skipn_add. unfold sample.
  now replace (lo + (hi - lo))%nat with hi by lia.
Qed.

Lemma is_mep_nonempty (x : Signal) : is_mep x = true -> x <> [].
Proof.
  intros Hm ->. discriminate Hm.
Qed.

(** What [draw_detected] does on a signal with a MEP, step by step. *)
Lemma draw_detected_drawn (x : Signal) (p t : nat) (rest : list nat) :
  find_peaks x min_prominence = p :: t :: rest ->
  exists lo hi,
    In lo x /\ In hi x /\ (forall v, In v x -> lo <= v <= hi) /\
    draw_detected x =
      ([], Return (Some {|
         band_low := Num (lo * 1.1);
         band_high := Num (hi * 1.1);
         shaded :=
           map (fun w => (Z.of_nat t - 50 <=? Z.of_nat w)%Z
                         && (Z.of_nat w <=? Z.of_nat t + 50)%Z)
               (seq 0 (length x));
         pulse_line := p |})).
Proof.
  intros E.
  assert (Hm : is_mep x = true) by (rewrite is_mep_length, E; reflexivity).
  pose proof (is_mep_nonempty x Hm) as Hne.
  destruct (np_min_nonempty Series x Hne) as (lo & Elo & Hlo & Hmin).
  destruct (np_max_nonempty Series x Hne) as (hi & Ehi & Hhi & Hmax).
  exists lo, hi. split; [exact Hlo|]. split; [exact Hhi|].
  split; [intros v Hv; split; [now apply Hmin | now apply Hmax]|].
  unfold draw_detected.
  assert (Ht : find_mep_timing x = ret (PeakIndex t)).
  { unfold find_mep_timing. now rewrite Hm, E. }
  rewrite Ht, bind_ret_l, Elo, bind_ret_l, Ehi, bind_ret_l.
  rewrite (find_tms_pulse_direct x p (t :: rest) E).
  change (@nil string, Return p) with (ret p). rewrite bind_ret_l.
  reflexivity.
Qed.

Lemma draw_detected_nothing (x : Signal) :
  is_mep x = false ->
  draw_detected x =
    (["No MEP detected"%string; "No MEP detected"%string], Return None).
Proof.
  intros Hm. unfold draw_detected, find_mep_timing. now rewrite Hm.
Qed.

(** X14: [draw_detected] never raises.  It draws nothing exactly on the
    signals without MEP, and there the message is printed twice, once by
    [find_mep_timing] and once by [draw_detected] itself. *)
Theorem draw_detected_without_mep (x : Signal) :
  (is_mep x = false ->
   draw_detected x =
     (["No MEP detected"%string; "No MEP detected"%string], Return None)) /\
  (forall out, draw_detected x = (out, Return None) -> is_mep x = false) /\
  (forall out e, draw_detected x <> (out, Raise e)).
Proof.
  split; [apply draw_detected_nothing|].
  destruct (is_mep x) eqn:Hm.
  - destruct (two_peaks_shape x Hm) as (p & t & rest & E).
    destruct (draw_detected_drawn x p t rest E) as (lo & hi & _ & _ & _ & ->).
    split; intros; discriminate.
  - rewrite (draw_detected_nothing x Hm). split; [reflexivity|].
    intros; discriminate.
Qed.

Lemma draw_detected_without_mep_witness :
  draw_detected [0; 1; 0] =
    (["No MEP detected"%string; "No MEP detected"%string], Return None).
Proof.
  refine (proj1 (draw_detected_without_mep [0; 1; 0]) _). reflexivity.
Defined.

(** X15: on a signal with a MEP [draw_detected] prints nothing and raises
    nothing: the search for the pulse cannot fail there.  The vertical line
    is at the index [find_tms_pulse] returns, at least two samples before
    the MEP peak that the band is centred on. *)
Theorem draw_detected_with_mep (x : Signal) :
  is_mep x = true ->
  exists d p t,
    draw_detected x = ([], Return (Some d)) /\
    find_tms_pulse x = ([], Return p) /\
    find_mep_timing x = ([], Return (PeakIndex t)) /\
    pulse_line d = p /\ (p + 2 <= t)%nat /\
    length (shaded d) = length x.
Proof.
  intros Hm. destruct (two_peaks_shape x Hm) as (p & t & rest & E).
  destruct (draw_detected_drawn x p t rest E) as (lo & hi & _ & _ & _ & Hd).
  eexists. exists p, t. split; [exact Hd|].
  split; [exact (find_tms_pulse_direct x p (t :: rest) E)|].
  split; [unfold find_mep_timing; now rewrite Hm, E|].
  split; [reflexivity|]. split.
  - pose proof (find_peaks_separated x min_prominence) as Hs.
    rewrite E in Hs. apply separated_from_gap in Hs. lia.
  - cbn [shaded]. now rewrite length_map, length_seq.
Qed.

Lemma draw_detected_with_mep_witness :
  exists d p t,
    draw_detected trial_of_size_1 = ([], Return (Some d)) /\
    find_tms_pulse trial_of_size_1 = ([], Return p) /\
    find_mep_timing trial_of_size_1 = ([], Return (PeakIndex t)) /\
    pulse_line d = p /\ (p + 2 <= t)%nat /\
    length (shaded d) = length trial_of_size_1.
Proof.
  refine (draw_detected_with_mep trial_of_size_1 _). reflexivity.
Defined.

(** X16: the band that [draw_detected] shades covers the samples at the
    positions [t - 50] to [t + 50], both included, cut at both ends of the
    signal.  When the peak is at sample 50 or later and [t + 50] is inside
    the signal, that is the window [get_mep_size] measures and one sample
    more, the one at [t + 50]. *)
Theorem draw_detected_band (x : Signal) (d : drawing) (t : nat) :
  draw_detected x = ([], Return (Some d)) ->
  find_mep_timing x = ([], Return (PeakIndex t)) ->
  (forall w, nth_error (shaded d) w = Some true <->
             (w < length x)%nat /\
             (Z.of_nat t - 50 <= Z.of_nat w <= Z.of_nat t + 50)%Z) /\
  select (shaded d) x
    = samples_between x (Z.of_nat t - 50) (Z.of_nat t + 50 + 1) /\
  ((50 <= t)%nat -> (t + 50 < length x)%nat ->
   select (shaded d) x = window_samples x t ++ [sample x (t + 50)]).
Proof.
  intros Hd Ht.
  destruct (find_mep_timing_cases x) as [[Hno E] | [Hm _]].
  { rewrite E in Ht. discriminate Ht. }
  destruct (two_peaks_shape x Hm) as (p & t' & rest & E).
  assert (Ht' : find_mep_timing x = ([], Return (PeakIndex t'))).
  { unfold find_mep_timing. now rewrite Hm, E. }
  rewrite Ht in Ht'. injection Ht' as <-.
  destruct (draw_detected_drawn x p t rest E) as (lo & hi & _ & _ & _ & Hd').
  rewrite Hd in Hd'. injection Hd' as ->. cbn [shaded].
  split; [|split].
  - intros w. split.
    + intros H. assert (Hw : (w < length x)%nat).
      { assert (Hsome : nth_error
                 (map (fun w0 => (Z.of_nat t - 50 <=? Z.of_nat w0)%Z
                                 && (Z.of_nat w0 <=? Z.of_nat t + 50)%Z)
                      (seq 0 (length x))) w <> None) by congruence.
        apply nth_error_Some in Hsome.
        now rewrite length_map, length_seq in Hsome. }
      split; [exact Hw|].
      rewrite nth_error_map, nth_error_seq in H.
      apply Nat.ltb_lt in Hw as Hb. rewrite Hb in H. cbn in H.
      injection H as H. apply andb_true_iff in H as [H1 H2].
      apply Z.leb_le in H1, H2. lia.
    + intros [Hw Hr]. rewrite nth_error_map, nth_error_seq.
      apply Nat.ltb_lt in Hw as Hb. rewrite Hb. cbn. f_equal.
      apply andb_true_iff. split; apply Z.leb_le; lia.
  - apply (select_mask x _ _ 0).
  - intros H50 Hin. rewrite (select_mask x _ _ 0). cbn [Z.of_nat].
    fold (samples_between x (Z.of_nat t - 50) (Z.of_nat t + 50 + 1)).
    unfold window_samples.
    replace (Z.of_nat t - 50)%Z with (Z.of_nat (t - 50)) by lia.
    replace (Z.of_nat t + 50)%Z with (Z.of_nat (t + 50)) by lia.
    apply samples_between_one_more. lia.
Qed.

Lemma draw_detected_band_witness :
  exists d,
    draw_detected two_pulses = ([], Return (Some d)) /\
    select (shaded d) two_pulses
      = samples_between two_pulses (150 - 50) (150 + 50 + 1).
Proof.
  assert (E : find_peaks two_pulses min_prominence = [50; 150]%nat)
    by (vm_compute; reflexivity).
  destruct (draw_detected_drawn two_pulses 50 150 [] E)
    as (lo & hi & _ & _ & _ & Hd).
  eexists. split; [exact Hd|].
  refine (proj1 (proj2 (draw_detected_band two_pulses _ 150 Hd _))).
  vm_compute. reflexivity.
Defined.

Lemma stretched_covers (lo hi v k : Q) :
  1 <= k -> lo <= 0 -> 0 <= hi -> lo <= v <= hi ->
  lo * k <= v <= hi * k.
Proof.
  intros Hk Hlo Hhi [H1 H2].
  assert (Ha : 0 <= (0 - lo) * (k - 1)) by (apply Qmult_le_0_compat; lra).
  assert (Hb : 0 <= hi * (k - 1)) by (apply Qmult_le_0_compat; lra).
  split; lra.
Qed.

Lemma stretched_above (lo k : Q) : 1 < k -> 0 < lo -> lo < lo * k.
Proof.
  intros Hk Hlo.
  assert (Ha : 0 < lo * (k - 1)) by (apply Qmult_lt_0_compat; lra).
  lra.
Qed.

(** X17: the two levels of the band are 1.1 times the smallest and the
    largest sample of the signal.  The band holds every sample when the
    smallest is not above zero and the largest not below; when the whole
    signal is above zero, the lower level is above the smallest sample. *)
Theorem draw_detected_levels (x : Signal) (d : drawing) :
  draw_detected x = ([], Return (Some d)) ->
  exists lo hi,
    band_low d = Num (lo * 1.1) /\ band_high d = Num (hi * 1.1) /\
    In lo x /\ In hi x /\ (forall v, In v x -> lo <= v <= hi) /\
    (lo <= 0 -> 0 <= hi -> forall v, In v x -> lo * 1.1 <= v <= hi * 1.1) /\
    (0 < lo -> lo < lo * 1.1).
Proof.
  intros Hd.
  destruct (find_mep_timing_cases x) as [[Hno _] | [Hm _]].
  { rewrite (draw_detected_nothing x Hno) in Hd. discriminate Hd. }
  destruct (two_peaks_shape x Hm) as (p & t & rest & E).
  destruct (draw_detected_drawn x p t rest E)
    as (lo & hi & Hlo & Hhi & Hall & Hd').
  rewrite Hd in Hd'. injection Hd' as ->. cbn [band_low band_high].
  exists lo, hi. repeat (split; [reflexivity || assumption|]).
  split.
  - intros Hneg Hpos v Hv.
    apply stretched_covers; [discriminate | assumption | assumption | now apply Hall].
  - apply stretched_above. reflexivity.
Qed.

Lemma draw_detected_levels_witness :
  exists d lo hi,
    draw_detected trial_of_size_1 = ([], Return (Some d)) /\
    band_low d = Num (lo * 1.1) /\ band_high d = Num (hi * 1.1).
Proof.
  assert (E : find_peaks trial_of_size_1 min_prominence = [1; 3]%nat)
    by reflexivity.
  destruct (draw_detected_drawn trial_of_size_1 1 3 [] E)
    as (lo0 & hi0 & _ & _ & _ & Hd).
  destruct (draw_detected_levels trial_of_size_1 _ Hd)
    as (lo & hi & Hl & Hh & _).
  eexists. exists lo, hi. split; [exact Hd|]. now split.
Defined.

(** X18: [plot_pre_post_filtering] raises ValueError when one of the two
    frames has no sample.  Otherwise both axes get the limits 1.15 times
    the smallest and 1.15 times the largest sample of the two frames
    together, which hold every sample of both when the smallest is not
    above zero and the largest not below. *)
Theorem plot_pre_post_filtering_limits (original_df filtered_df : DataFrame) :
  (values original_df = [] \/ values filtered_df = [] ->
   plot_pre_post_filtering original_df filtered_df = ([], Raise ValueError)) /\
  (values original_df <> [] -> values filtered_df <> [] ->
   exists lo hi,
     plot_pre_post_filtering original_df filtered_df
       = ([], Return (Num (lo * 1.15), Num (hi * 1.15))) /\
     In lo (values original_df ++ values filtered_df) /\
     In hi (values original_df ++ values filtered_df) /\
     (forall v, In v (values original_df ++ values filtered_df) ->
                lo <= v <= hi) /\
     (lo <= 0 -> 0 <= hi ->
      forall v, In v (values original_df ++ values filtered_df) ->
                lo * 1.15 <= v <= hi * 1.15)).
Proof.
  unfold plot_pre_post_filtering. split.
  - intros [E | E].
    + now rewrite E.
    + destruct (values original_df) as [|u l]; [reflexivity|].
      rewrite E. reflexivity.
  - intros H1 H2.
    destruct (np_min_nonempty Array _ H1) as (lo1 & -> & Hlo1 & Hmin1).
    destruct (np_min_nonempty Array _ H2) as (lo2 & -> & Hlo2 & Hmin2).
    destruct (np_max_nonempty Array _ H1) as (hi1 & -> & Hhi1 & Hmax1).
    destruct (np_max_nonempty Array _ H2) as (hi2 & -> & Hhi2 & Hmax2).
    rewrite !bind_ret_l. cbn [builtin_min builtin_max].
    assert (Hlo : exists lo,
               (if Qltb lo2 lo1 then Num lo2 else Num lo1) = Num lo /\
               In lo (values original_df ++ values filtered_df) /\
               lo <= lo1 /\ lo <= lo2).
    { destruct (Qltb lo2 lo1) eqn:C.
      - apply Qltb_lt in C. exists lo2.
        repeat split; [apply in_or_app; now right | lra | lra].
      - apply Qltb_ge in C. exists lo1.
        repeat split; [apply in_or_app; now left | lra | lra]. }
    assert (Hhi : exists hi,
               (if Qltb hi1 hi2 then Num hi2 else Num hi1) = Num hi /\
               In hi (values original_df ++ values filtered_df) /\
               hi1 <= hi /\ hi2 <= hi).
    { destruct (Qltb hi1 hi2) eqn:C.
      - apply Qltb_lt in C. exists hi2.
        repeat split; [apply in_or_app; now right | lra | lra].
      - apply Qltb_ge in C. exists hi1.
        repeat split; [apply in_or_app; now left | lra | lra]. }
    destruct Hlo as (lo & -> & Hlo & Hl1 & Hl2).
    destruct Hhi as (hi & -> & Hhi & Hh1 & Hh2).
    exists lo, hi. split; [reflexivity|].
    split; [exact Hlo|]. split; [exact Hhi|].
    assert (Hall : forall v, In v (values original_df ++ values filtered_df) ->
                             lo <= v <= hi).
    { intros v Hv. apply in_app_or in Hv. destruct Hv as [Hv | Hv].
      - specialize (Hmin1 v Hv). specialize (Hmax1 v Hv). split; lra.
      - specialize (Hmin2 v Hv). specialize (Hmax2 v Hv). split; lra. }
    split; [exact Hall|].
    intros Hneg Hpos v Hv.
    apply stretched_covers; [discriminate | assumption | assumption | now apply Hall].
Qed.

Lemma plot_pre_post_filtering_limits_witness :
  plot_pre_post_filtering [] [[0; 1]] = ([], Raise ValueError) /\
  exists lo hi,
    plot_pre_post_filtering [[-1; 2]] [[0; 1]]
      = ([], Return (Num (lo * 1.15), Num (hi * 1.15))).
Proof.
  split.
  - refine (proj1 (plot_pre_post_filtering_limits [] [[0; 1]]) _).
    left. reflexivity.
  - destruct (proj2 (plot_pre_post_filtering_limits [[-1; 2]] [[0; 1]]))
      as (lo & hi & E & _); [discriminate | discriminate |].
    now exists lo, hi.
Defined.

(** * A constant added to every sample, in binary64 *)

(** ** Signals that are alike *)

Section Coherent.

Variable pairs : list (float * float).
Hypothesis pairs_coherent : Binary64.coherent pairs.

Lemma coherent_ltb (u u' v v' : float) :
  In (u, u') pairs -> In (v, v') pairs ->
  PrimFloat.ltb u' v' = PrimFloat.ltb u v.
Proof.
  intros Hu Hv. symmetry. exact (proj1 (pairs_coherent u u' v v' Hu Hv)).
Qed.

Lemma coherent_leb (u u' v v' : float) :
  In (u, u') pairs -> In (v, v') pairs ->
  PrimFloat.leb u' v' = PrimFloat.leb u v.
Proof.
  intros Hu Hv. symmetry.
  exact (proj1 (proj2 (pairs_coherent u u' v v' Hu Hv))).
Qed.

Lemma coherent_eqb (u u' v v' : float) :
  In (u, u') pairs -> In (v, v') pairs ->
  PrimFloat.eqb u' v' = PrimFloat.eqb u v.
Proof.
  intros Hu Hv. symmetry.
  exact (proj1 (proj2 (proj2 (pairs_coherent u u' v v' Hu Hv)))).
Qed.

Lemma coherent_sub (u u' v v' : float) :
  In (u, u') pairs -> In (v, v') pairs ->
  PrimFloat.sub u' v' = PrimFloat.sub u v.
Proof.
  intros Hu Hv. symmetry.
  exact (proj2 (proj2 (proj2 (pairs_coherent u u' v v' Hu Hv)))).
Qed.

Lemma coherent_is_nan (u u' : float) :
  In (u, u') pairs -> PrimFloat.is_nan u' = PrimFloat.is_nan u.
Proof.
  intros Hu. unfold PrimFloat.is_nan. now rewrite (coherent_eqb u u' u u').
Qed.

Lemma coherent_lower (u u' v v' : float) :
  In (u, u') pairs -> In (v, v') pairs ->
  In (Binary64.lower u v, Binary64.lower u' v') pairs.
Proof.
  intros Hu Hv. unfold Binary64.lower.
  rewrite (coherent_ltb u u' v v' Hu Hv).
  now destruct (PrimFloat.ltb u v).
Qed.

Lemma coherent_higher (u u' v v' : float) :
  In (u, u') pairs -> In (v, v') pairs ->
  In (Binary64.higher u v, Binary64.higher u' v') pairs.
Proof.
  intros Hu Hv. unfold Binary64.higher.
  rewrite (coherent_ltb u u' v v' Hu Hv).
  now destruct (PrimFloat.ltb u v).
Qed.

Lemma coherent_maximum (u u' v v' : float) :
  In (u, u') pairs -> In (v, v') pairs ->
  In (Binary64.maximum u v, Binary64.maximum u' v') pairs.
Proof.
  intros Hu Hv. unfold Binary64.maximum.
  rewrite (coherent_leb v v' u u' Hv Hu), (coherent_is_nan u u' Hu).
  now destruct (PrimFloat.leb v u || PrimFloat.is_nan u).
Qed.

Lemma coherent_minimum (u u' v v' : float) :
  In (u, u') pairs -> In (v, v') pairs ->
  In (Binary64.minimum u v, Binary64.minimum u' v') pairs.
Proof.
  intros Hu Hv. unfold Binary64.minimum.
  rewrite (coherent_leb u u' v v' Hu Hv), (coherent_is_nan u u' Hu).
  now destruct (PrimFloat.leb u v || PrimFloat.is_nan u).
Qed.

(** A reduction of two lists that go in step ends on two values in step. *)
Lemma coherent_fold (step : float -> float -> float) :
  (forall u u' v v',
      In (u, u') pairs -> In (v, v') pairs ->
      In (step u v, step u' v') pairs) ->
  forall l l' v v',
    length l = length l' ->
    In (v, v') pairs -> incl (combine l l') pairs ->
    In (fold_left step l v, fold_left step l' v') pairs.
Proof.
  intros Hstep. induction l as [|w l IH]; intros [|w' l'] v v' Hlen Hv Hincl;
    try discriminate Hlen; cbn [fold_left]; [exact Hv|].
  cbn [combine] in Hincl. apply IH.
  - now injection Hlen.
  - apply Hstep; [exact Hv | apply Hincl; now left].
  - intros p Hp. apply Hincl. now right.
Qed.

(** Dropping the nan samples keeps two lists in step. *)
Lemma coherent_filter :
  forall l l',
    length l = length l' -> incl (combine l l') pairs ->
    length (filter (fun v => negb (PrimFloat.is_nan v)) l)
    = length (filter (fun v => negb (PrimFloat.is_nan v)) l') /\
    incl (combine (filter (fun v => negb (PrimFloat.is_nan v)) l)
                  (filter (fun v => negb (PrimFloat.is_nan v)) l'))
         pairs.
Proof.
  induction l as [|w l IH]; intros [|w' l'] Hlen Hincl;
    try discriminate Hlen.
  - split; [reflexivity | intros p []].
  - cbn [combine] in Hincl. cbn [filter].
    assert (Hw : In (w, w') pairs) by (apply Hincl; now left).
    rewrite (coherent_is_nan w w' Hw).
    destruct (IH l') as [Hl Hi].
    + now injection Hlen.
    + intros p Hp. apply Hincl. now right.
    + destruct (negb (PrimFloat.is_nan w)); [|now split].
      split; [cbn [length]; now rewrite Hl|].
      cbn [combine]. intros p [<- | Hp]; [exact Hw | now apply Hi].
Qed.

(** The largest minus the smallest, as [get_mep_size] forms it. *)
Lemma coherent_range (kind : container) (l l' : list float) :
  length l = length l' -> incl (combine l l') pairs ->
  (hi <- Binary64.np_max kind l' ;;
   lo <- Binary64.np_min kind l' ;; ret (PrimFloat.sub hi lo))
  = (hi <- Binary64.np_max kind l ;;
     lo <- Binary64.np_min kind l ;; ret (PrimFloat.sub hi lo)).
Proof.
  intros Hlen Hincl.
  assert (Hcases : forall m m' : list float,
             length m = length m' -> incl (combine m m') pairs ->
             (m = [] /\ m' = []) \/
             exists v r v' r',
               m = v :: r /\ m' = v' :: r' /\
               PrimFloat.sub (fold_left Binary64.maximum r' v')
                             (fold_left Binary64.minimum r' v')
               = PrimFloat.sub (fold_left Binary64.maximum r v)
                               (fold_left Binary64.minimum r v)).
  { intros [|v r] [|v' r'] Hl Hi; try discriminate Hl; [now left | right].
    exists v, r, v', r'. split; [reflexivity|]. split; [reflexivity|].
    cbn [combine] in Hi.
    assert (Hv : In (v, v') pairs) by (apply Hi; now left).
    assert (Hr : incl (combine r r') pairs)
      by (intros p Hp; apply Hi; now right).
    assert (Hl' : length r = length r') by now injection Hl.
    apply coherent_sub.
    - now apply (coherent_fold Binary64.maximum coherent_maximum).
    - now apply (coherent_fold Binary64.minimum coherent_minimum). }
  unfold Binary64.np_max, Binary64.np_min, Binary64.reduce.
  destruct kind.
  - destruct (Hcases l l' Hlen Hincl)
      as [[-> ->] | (v & r & v' & r' & -> & -> & E)]; [reflexivity|].
    rewrite !bind_ret_l. now rewrite E.
  - destruct (coherent_filter l l' Hlen Hincl) as [Hl Hi].
    destruct (Hcases _ _ Hl Hi)
      as [[-> ->] | (v & r & v' & r' & -> & -> & E)]; [reflexivity|].
    rewrite !bind_ret_l. now rewrite E.
Qed.

End Coherent.

(** ** The maxima search over floats *)

Lemma float_plateau_scan_bounds (fuel : nat) (x : Binary64.Signal)
    (i i_ahead i_max : nat) :
  (i_ahead <= i_max)%nat ->
  (i_ahead <= Binary64.plateau_scan fuel x i i_ahead i_max <= i_max)%nat.
Proof.
  revert i_ahead. induction fuel as [|fuel IH]; intros i_ahead Hle;
    cbn [Binary64.plateau_scan].
  - lia.
  - destruct (i_ahead <? i_max)%nat eqn:E; cbn [andb]; [|lia].
    apply Nat.ltb_lt in E.
    destruct (PrimFloat.eqb (Binary64.sample x i_ahead) (Binary64.sample x i));
      [|lia].
    specialize (IH (S i_ahead)). lia.
Qed.

Lemma float_plateau_end_bounds (x : Binary64.Signal) (i i_max : nat) :
  (i < i_max)%nat -> (S i <= Binary64.plateau_end x i i_max <= i_max)%nat.
Proof.
  intros H. unfold Binary64.plateau_end. apply float_plateau_scan_bounds. lia.
Qed.

Lemma float_maxima_loop_below (x : Binary64.Signal) (i_max : nat) :
  forall fuel i p,
    In p (Binary64.maxima_loop fuel x i i_max) -> (p < i_max)%nat.
Proof.
  induction fuel as [|fuel IH]; intros i p; cbn [Binary64.maxima_loop In];
    [tauto|].
  destruct (i <? i_max)%nat eqn:E; [|cbn [In]; tauto].
  apply Nat.ltb_lt in E.
  pose proof (float_plateau_end_bounds x i i_max E) as Hb.
  destruct (PrimFloat.ltb (Binary64.sample x (i - 1)) (Binary64.sample x i)).
  - destruct (PrimFloat.ltb (Binary64.sample x (Binary64.plateau_end x i i_max))
                            (Binary64.sample x i)).
    + pose proof (midpoint_bounds i (Binary64.plateau_end x i i_max - 1)) as Hm.
      intros [<- | Hin]; [lia | eapply IH; eassumption].
    + apply IH.
  - apply IH.
Qed.

Lemma float_local_maxima_inside (x : Binary64.Signal) (p : nat) :
  In p (Binary64.local_maxima x) -> (p < length x - 1)%nat.
Proof. unfold Binary64.local_maxima. apply float_maxima_loop_below. Qed.

Lemma float_slice_pairs (x y : Binary64.Signal) (a b : Z) :
  length x = length y ->
  length (Binary64.slice x a b) = length (Binary64.slice y a b) /\
  incl (combine (Binary64.slice x a b) (Binary64.slice y a b)) (combine x y).
Proof.
  intros Hlen. unfold Binary64.slice. rewrite <- Hlen.
  set (start := Z.to_nat (slice_bound (Z.of_nat (length x)) a)).
  set (stop := Z.to_nat (slice_bound (Z.of_nat (length x)) b)).
  split.
  - rewrite !length_firstn, !length_skipn. now rewrite Hlen.
  - assert (Hskip : forall (n : nat) (l l' : list float),
               combine (skipn n l) (skipn n l') = skipn n (combine l l')).
    { induction n as [|n IH]; intros [|u l] [|u' l']; cbn [skipn combine];
        try reflexivity.
      - now destruct (skipn n l).
      - apply IH. }
    rewrite <- combine_firstn, Hskip.
    intros p Hp.
    rewrite <- (firstn_skipn start (combine x y)). apply in_or_app. right.
    rewrite <- (firstn_skipn (stop - start) (skipn start (combine x y))).
    apply in_or_app. now left.
Qed.

(** ** Two signals that are alike *)

Section Alike.

Variables x y : Binary64.Signal.
Hypothesis x_y_alike : Binary64.alike x y.

Lemma alike_length : length y = length x.
Proof. symmetry. exact (proj1 x_y_alike). Qed.

Lemma alike_coherent : Binary64.coherent (combine x y).
Proof. exact (proj2 x_y_alike). Qed.

Lemma alike_sample (i : nat) :
  (i < length x)%nat ->
  In (Binary64.sample x i, Binary64.sample y i) (combine x y).
Proof.
  intros Hi. unfold Binary64.sample.
  rewrite <- (combine_nth x y i 0%float 0%float)
    by (symmetry; exact alike_length).
  apply nth_In. rewrite length_combine, alike_length. lia.
Qed.

Lemma alike_ltb (i j : nat) :
  (i < length x)%nat -> (j < length x)%nat ->
  PrimFloat.ltb (Binary64.sample y i) (Binary64.sample y j)
  = PrimFloat.ltb (Binary64.sample x i) (Binary64.sample x j).
Proof.
  intros Hi Hj.
  apply (coherent_ltb _ alike_coherent); now apply alike_sample.
Qed.

Lemma alike_leb (i j : nat) :
  (i < length x)%nat -> (j < length x)%nat ->
  PrimFloat.leb (Binary64.sample y i) (Binary64.sample y j)
  = PrimFloat.leb (Binary64.sample x i) (Binary64.sample x j).
Proof.
  intros Hi Hj.
  apply (coherent_leb _ alike_coherent); now apply alike_sample.
Qed.

Lemma alike_eqb (i j : nat) :
  (i < length x)%nat -> (j < length x)%nat ->
  PrimFloat.eqb (Binary64.sample y i) (Binary64.sample y j)
  = PrimFloat.eqb (Binary64.sample x i) (Binary64.sample x j).
Proof.
  intros Hi Hj.
  apply (coherent_eqb _ alike_coherent); now apply alike_sample.
Qed.

Lemma alike_plateau_scan (i i_max : nat) :
  (i < length x)%nat -> (i_max < length x)%nat ->
  forall fuel i_ahead,
    Binary64.plateau_scan fuel y i i_ahead i_max
    = Binary64.plateau_scan fuel x i i_ahead i_max.
Proof.
  intros Hi Hmax. induction fuel as [|fuel IH]; intros i_ahead;
    cbn [Binary64.plateau_scan]; [reflexivity|].
  destruct (i_ahead <? i_max)%nat eqn:E; cbn [andb]; [|reflexivity].
  apply Nat.ltb_lt in E.
  rewrite alike_eqb by lia. now rewrite IH.
Qed.

Lemma alike_plateau_end (i i_max : nat) :
  (i < length x)%nat -> (i_max < length x)%nat ->
  Binary64.plateau_end y i i_max = Binary64.plateau_end x i i_max.
Proof. intros Hi Hmax. now apply alike_plateau_scan. Qed.

Lemma alike_maxima_loop (i_max : nat) :
  (i_max < length x)%nat ->
  forall fuel i,
    Binary64.maxima_loop fuel y i i_max = Binary64.maxima_loop fuel x i i_max.
Proof.
  intros Hmax. induction fuel as [|fuel IH]; intros i;
    cbn [Binary64.maxima_loop]; [reflexivity|].
  destruct (i <? i_max)%nat eqn:E; [|reflexivity].
  apply Nat.ltb_lt in E.
  pose proof (float_plateau_end_bounds x i i_max E) as Hb.
  rewrite alike_plateau_end by lia.
  rewrite (alike_ltb (i - 1) i) by lia.
  rewrite (alike_ltb (Binary64.plateau_end x i i_max) i) by lia.
  now rewrite !IH.
Qed.

Lemma alike_local_maxima :
  Binary64.local_maxima y = Binary64.local_maxima x.
Proof.
  unfold Binary64.local_maxima. rewrite alike_length.
  destruct (length x) as [|n] eqn:En.
  - reflexivity.
  - apply alike_maxima_loop. lia.
Qed.

Lemma alike_left_scan (peak : nat) :
  (peak < length x)%nat ->
  forall n m m',
    (n <= S peak)%nat -> In (m, m') (combine x y) ->
    In (Binary64.left_scan x peak n m, Binary64.left_scan y peak n m')
       (combine x y).
Proof.
  intros Hp. induction n as [|n IH]; intros m m' Hn Hm;
    cbn [Binary64.left_scan]; [exact Hm|].
  rewrite alike_leb by lia.
  destruct (PrimFloat.leb (Binary64.sample x n) (Binary64.sample x peak));
    [|exact Hm].
  apply IH; [lia|].
  apply (coherent_lower _ alike_coherent); [apply alike_sample; lia | exact Hm].
Qed.

Lemma alike_right_scan (peak i_max : nat) :
  (peak < length x)%nat -> (i_max < length x)%nat ->
  forall fuel i m m',
    In (m, m') (combine x y) ->
    In (Binary64.right_scan fuel x peak i i_max m,
        Binary64.right_scan fuel y peak i i_max m')
       (combine x y).
Proof.
  intros Hp Hmax. induction fuel as [|fuel IH]; intros i m m' Hm;
    cbn [Binary64.right_scan]; [exact Hm|].
  destruct (i <=? i_max)%nat eqn:E; cbn [andb]; [|exact Hm].
  apply Nat.leb_le in E.
  rewrite alike_leb by lia.
  destruct (PrimFloat.leb (Binary64.sample x i) (Binary64.sample x peak));
    [|exact Hm].
  apply IH.
  apply (coherent_lower _ alike_coherent); [apply alike_sample; lia | exact Hm].
Qed.

Lemma alike_peak_prominence (peak : nat) :
  (peak < length x)%nat ->
  Binary64.peak_prominence y peak = Binary64.peak_prominence x peak.
Proof.
  intros Hp. unfold Binary64.peak_prominence.
  apply (coherent_sub _ alike_coherent); [now apply alike_sample|].
  apply (coherent_higher _ alike_coherent).
  - unfold Binary64.left_min.
    apply alike_left_scan; [exact Hp | lia | now apply alike_sample].
  - unfold Binary64.right_min. rewrite alike_length.
    apply alike_right_scan; [exact Hp | lia | now apply alike_sample].
Qed.

Lemma alike_find_peaks (prominence : float) :
  Binary64.find_peaks y prominence = Binary64.find_peaks x prominence.
Proof.
  unfold Binary64.find_peaks. rewrite alike_local_maxima.
  apply filter_ext_in. intros p Hp.
  apply float_local_maxima_inside in Hp.
  rewrite alike_peak_prominence by lia. reflexivity.
Qed.

Lemma alike_is_mep : Binary64.is_mep y = Binary64.is_mep x.
Proof. unfold Binary64.is_mep. now rewrite alike_find_peaks. Qed.

Lemma alike_find_mep_timing :
  Binary64.find_mep_timing y = Binary64.find_mep_timing x.
Proof.
  unfold Binary64.find_mep_timing.
  now rewrite alike_is_mep, alike_find_peaks.
Qed.

End Alike.

(** ** [get_mep_size(emg_signal + c)] *)



